(** * Solana-Staking: the staking lifecycle and the delegator scan

    A shallow embedding of [functions/utils.js], [functions/core.js], the
    entry flows under [mains/] and [index.js].

    The program is a sequence of asynchronous calls on an RPC connection.
    It is embedded as a term of a free monad [Prog] over the calls it makes;
    [run] interprets such a term against an arbitrary network and returns
    the trace of what happened together with the value returned or the
    exception thrown; [process] interprets it as the whole Node process,
    with the promises that the program does not await. *)

From Stdlib Require Import List String Ascii ZArith NArith Lia Bool Arith.
From Stdlib Require Import Init.Byte.
Import ListNotations.
Local Open Scope string_scope.
Local Open Scope Z_scope.

Set Implicit Arguments.

(** ** Values of @solana/web3.js that the program handles *)

(** A JavaScript exception. [TypeError] is what the language raises on a
    property read of [undefined]; [JsError] is [new Error(message)];
    [RpcError] is the rejection of a promise by the RPC client
    (connection refused, insufficient funds, expired blockhash, ...). *)
Inductive Error : Type :=
| TypeError (message : string)
| JsError (message : string)
| RpcError (code : Z) (message : string).

(** [PublicKey]: the class stores the key as a big number [_bn]. *)
Record PublicKey : Type := PublicKeyData { _bn : N }.

(** [Keypair]: a public key and its secret key. *)
Record Keypair : Type := { publicKey : PublicKey; secretKey : list byte }.

(** Lamport amounts are JavaScript numbers that hold integers.  Such a
    number is a double: it has 53 significant bits, and the sum of two of
    them is the integer sum rounded to the nearest double, a tie going to
    the even one.  [round_to_double z] is that double, for [z] in the
    range of finite doubles. *)
Definition round_to_double (z : Z) : Z :=
  let m := Z.abs z in
  if m <? 2 ^ 53 then z
  else
    let ulp := 2 ^ (Z.log2 m - 52) in
    let q := m / ulp in
    let r := m mod ulp in
    let q' :=
      if 2 * r <? ulp then q
      else if ulp <? 2 * r then q + 1
      else if Z.even q then q else q + 1 in
    Z.sgn z * (q' * ulp).

(** [a + b] on JavaScript numbers that hold integers. *)
Definition js_add (a b : Z) : Z := round_to_double (a + b).

Arguments js_add : simpl never.

Definition LAMPORTS_PER_SOL : Z := 1000000000.

(** [new Connection(clusterApiUrl(cluster), commitment)]. *)
Record Connection : Type := { cluster : string; commitment : string }.

Record Authorized : Type := new_Authorized
  { staker : PublicKey; withdrawer : PublicKey }.

Record Lockup : Type := new_Lockup
  { unixTimestamp : Z; epoch : Z; custodian : PublicKey }.

(** The parameter objects handed to [StakeProgram]. *)
Record CreateStakeAccountParams : Type :=
  { authorized : Authorized;
    fromPubkey : PublicKey;
    lamports : Z;
    lockup : Lockup;
    stakePubkey : PublicKey }.

Record DelegateStakeParams : Type :=
  { d_stakePubkey : PublicKey;
    d_authorizedPubkey : PublicKey;
    d_votePubkey : PublicKey }.

Record DeactivateStakeParams : Type :=
  { x_stakePubkey : PublicKey;
    x_authorizedPubkey : PublicKey }.

Record WithdrawStakeParams : Type :=
  { w_stakePubkey : PublicKey;
    w_authorizedPubkey : PublicKey;
    w_toPubkey : PublicKey;
    w_lamports : Z }.

(** An unsigned transaction, as returned by the four builders of
    [StakeProgram]: it is determined by the builder and its parameters. *)
Inductive Transaction : Type :=
| StakeProgram_createAccount (p : CreateStakeAccountParams)
| StakeProgram_delegate (p : DelegateStakeParams)
| StakeProgram_deactivate (p : DeactivateStakeParams)
| StakeProgram_withdraw (p : WithdrawStakeParams).

(** [StakeProgram.space]: the byte size of a stake account. *)
Definition StakeProgram_space : N := 200.

Record BlockhashWithExpiryBlockHeight : Type :=
  { blockhash : string; lastValidBlockHeight : N }.

Record BlockheightBasedTransactionConfirmationStrategy : Type :=
  { s_blockhash : string;
    s_lastValidBlockHeight : N;
    s_signature : string }.

(** The value of [confirmTransaction]: [err] is null when the transaction
    succeeded.  The program does not look at it. *)
Record SignatureResult : Type := { err : option string }.

Record VoteAccountInfo : Type :=
  { votePubkey : string; nodePubkey : string; activatedStake : Z }.

Record VoteAccountStatus : Type :=
  { current : list VoteAccountInfo; delinquent : list VoteAccountInfo }.

Record StakeActivationData : Type :=
  { state : string; active : Z; inactive : Z }.

Record AccountInfo : Type :=
  { executable : bool;
    owner : PublicKey;
    a_lamports : Z;
    data : list byte }.

Record ProgramAccount : Type := { pubkey : PublicKey; account : AccountInfo }.

(** The two filters of [getProgramAccounts] the program uses. *)
Inductive GetProgramAccountsFilter : Type :=
| dataSize (size : N)
| memcmp (offset : N) (bytes : PublicKey).

(** ** The [PublicKey] constructor

    [new PublicKey(value)] belongs to @solana/web3.js.  It first reads
    [value._bn]: on [undefined] that read raises a [TypeError]; on a
    [PublicKey] the big number is shared.  A string is decoded from base 58
    and must give exactly 32 bytes. *)

Inductive PublicKeyInitData : Type :=
| js_undefined
| js_string (s : string)
| js_PublicKey (pk : PublicKey).

Definition PUBLIC_KEY_LENGTH : N := 32.

Definition BASE58 : string :=
  "123456789ABCDEFGHJKLMNPQRSTUVWXYZabcdefghijkmnopqrstuvwxyz".

Fixpoint index_of (c : ascii) (alphabet : string) : option N :=
  match alphabet with
  | EmptyString => None
  | String a rest =>
      if Ascii.eqb a c then Some 0%N
      else option_map N.succ (index_of c rest)
  end.

(** The digits of a base-58 string, or [None] at a character outside the
    alphabet. *)
Fixpoint digits58 (s : string) : option (list N) :=
  match s with
  | EmptyString => Some []
  | String c rest =>
      match index_of c BASE58, digits58 rest with
      | Some d, Some ds => Some (d :: ds)
      | _, _ => None
      end
  end.

Fixpoint leading_zeros (ds : list N) : N :=
  match ds with
  | 0%N :: rest => N.succ (leading_zeros rest)
  | _ => 0%N
  end.

Definition value58 (ds : list N) : N :=
  fold_left (fun acc d => (acc * 58 + d)%N) ds 0%N.

Definition byteLength (n : N) : N :=
  match n with
  | 0%N => 0%N
  | _ => (N.log2 n / 8 + 1)%N
  end.

(** [bs58.decode(s).length] and [new BN(bs58.decode(s))]: every leading
    digit zero is one zero byte, the rest is the number in big endian. *)
Definition bs58_decode (s : string) : option (N * N) :=
  match digits58 s with
  | None => None
  | Some ds =>
      let n := value58 ds in
      Some ((leading_zeros ds + byteLength n)%N, n)
  end.

Definition newPublicKey (value : PublicKeyInitData) : Error + PublicKey :=
  match value with
  | js_undefined =>
      inl (TypeError "Cannot read properties of undefined (reading '_bn')")
  | js_PublicKey pk => inr pk
  | js_string s =>
      match bs58_decode s with
      | None => inl (JsError "Non-base58 character")
      | Some (len, n) =>
          if (len =? PUBLIC_KEY_LENGTH)%N then inr (PublicKeyData n)
          else inl (JsError "Invalid public key input")
      end
  end.

Definition byte_of_N (n : N) : byte :=
  match Byte.of_N n with
  | Some b => b
  | None => x00
  end.

Fixpoint le_bytes (len : nat) (n : N) : list byte :=
  match len with
  | O => []
  | S len' => byte_of_N (n mod 256) :: le_bytes len' (n / 256)
  end.

(** [pk.toBytes()]: the 32 bytes of the key, big endian, zero padded. *)
Definition toBytes (pk : PublicKey) : list byte :=
  rev (le_bytes 32 (_bn pk)).


(** ** Calls and their results

    Everything the program asks of the outside world: the methods of
    [Connection] it calls, [sendAndConfirmTransaction] and
    [Keypair.generate].  [resp c] is the type of the value of call [c]. *)

Inductive Call : Type :=
| Keypair_generate
| conn_requestAirdrop (connection : Connection) (to : PublicKey) (amount : Z)
| conn_getLatestBlockhash (connection : Connection)
| conn_confirmTransaction (connection : Connection)
    (strategy : BlockheightBasedTransactionConfirmationStrategy)
| conn_getMinimumBalanceForRentExemption (connection : Connection)
    (dataLength : N)
| sendAndConfirmTransaction (connection : Connection) (tx : Transaction)
    (signers : list Keypair)
| conn_getBalance (connection : Connection) (pk : PublicKey)
| conn_getStakeActivation (connection : Connection) (pk : PublicKey)
| conn_getVoteAccounts (connection : Connection)
| conn_getProgramAccounts (connection : Connection) (programId : PublicKey)
    (filters : list GetProgramAccountsFilter).

Definition resp (c : Call) : Type :=
  match c with
  | Keypair_generate => Keypair
  | conn_requestAirdrop _ _ _ => string
  | conn_getLatestBlockhash _ => BlockhashWithExpiryBlockHeight
  | conn_confirmTransaction _ _ => SignatureResult
  | conn_getMinimumBalanceForRentExemption _ _ => Z
  | sendAndConfirmTransaction _ _ _ => string
  | conn_getBalance _ _ => Z
  | conn_getStakeActivation _ _ => StakeActivationData
  | conn_getVoteAccounts _ => VoteAccountStatus
  | conn_getProgramAccounts _ _ _ => list ProgramAccount
  end.

(** What the program writes with [console.log] and [console.error].  A
    line is kept as the template it comes from and the values put in. *)
Inductive LogMsg : Type :=
| log_validators (total : nat)
| log_current_validators (n : nat)
| log_created (txId : string)
| log_balance (stakeBalance : Z)
| log_status (state : string)
| log_delegated (validator : PublicKey) (txId : string)
| log_deactivated (txId : string)
| log_withdrawn (txId : string)
| log_delegators (validator : PublicKey) (n : nat)
| log_sample (first : ProgramAccount)
| log_error (label : option string) (e : Error).

(** ** Programs

    [Spawn task k]: the async function [task] is called and its promise is
    not awaited; the caller goes on with [k]. *)

Inductive Prog (A : Type) : Type :=
| Ret (a : A)
| Throw (e : Error)
| Do (c : Call) (k : Error + resp c -> Prog A)
| Spawn (task : Prog unit) (k : Prog A)
| Log (m : LogMsg) (k : Prog A).

Arguments Ret {A} a.
Arguments Throw {A} e.
Arguments Do {A} c k.
Arguments Spawn {A} task k.
Arguments Log {A} m k.

(** One step of a run.
    - [ECall c r]: call [c] was made and awaited, and gave [r] (a
      rejection or a value).
    - [ESpawn c k]: call [c] was made inside a function whose promise is
      dropped; [k] is what that function does with the answer, whenever
      it comes.
    - [ELog m]: line [m] was written.
    - [ESettle c r]: a call made earlier in a function whose promise is
      dropped gave [r].
    - [EUnhandled e]: a dropped promise was rejected with [e]; nothing
      handles the rejection, and Node ends the process on it.
    - [EAbandoned c]: call [c] was made and awaited, and the process ended
      before it answered. *)
Inductive Event : Type :=
| ECall (c : Call) (r : Error + resp c)
| ESpawn (c : Call) (k : Error + resp c -> Prog unit)
| ELog (m : LogMsg)
| ESettle (c : Call) (r : Error + resp c)
| EUnhandled (e : Error)
| EAbandoned (c : Call).

Fixpoint bind {A B : Type} (p : Prog A) (f : A -> Prog B) : Prog B :=
  match p with
  | Ret a => f a
  | Throw e => Throw e
  | Do c k => Do c (fun r => bind (k r) f)
  | Spawn task k => Spawn task (bind k f)
  | Log m k => Log m (bind k f)
  end.

Declare Scope prog_scope.
Delimit Scope prog_scope with prog.
Notation "x <- p ;; q" := (bind p (fun x => q))
  (at level 61, p at next level, right associativity) : prog_scope.
Notation "p ;; q" := (bind p (fun _ => q))
  (at level 61, right associativity) : prog_scope.
Local Open Scope prog_scope.

(** [await c]: a rejected promise is thrown at the [await]. *)
Definition await (c : Call) : Prog (resp c) :=
  Do c (fun r => match r with
                 | inl e => Throw e
                 | inr v => Ret v
                 end).

Definition console_log (m : LogMsg) : Prog unit := Log m (Ret tt).

(** A value of type [Error + A] computed without a call: [new PublicKey]
    and property reads, which throw synchronously. *)
Definition lift {A : Type} (r : Error + A) : Prog A :=
  match r with
  | inl e => Throw e
  | inr a => Ret a
  end.

(** An async function that is called and not awaited: the whole of it is
    spawned, and the caller goes on at once. *)
Definition detach {A : Type} (p : Prog A) : Prog unit :=
  Spawn (p;; Ret tt) (Ret tt).

(** [try { await p } catch (err) { handler err }].  What a function
    spawned inside [p] throws is not thrown to [p], so the handler does
    not see it. *)
Fixpoint try_catch {A : Type} (p : Prog A) (handler : Error -> Prog A)
  : Prog A :=
  match p with
  | Ret a => Ret a
  | Throw e => handler e
  | Do c k => Do c (fun r => try_catch (k r) handler)
  | Spawn task k => Spawn task (try_catch k handler)
  | Log m k => Log m (try_catch k handler)
  end.

(** A promise that was dropped: it waits for the answer of a call to go
    on, or it is rejected already. *)
Inductive Dropped : Type :=
| waiting (c : Call) (k : Error + resp c -> Prog unit)
| rejected (e : Error).

(** [start task]: what a function does from its call to its first
    [await], where it gives the control back: the events, and the promises
    that are left behind when nobody awaits the function. *)
Fixpoint start {A : Type} (task : Prog A) : list Event * list Dropped :=
  match task with
  | Ret _ => ([], [])
  | Throw e => ([EUnhandled e], [rejected e])
  | Do c k => ([ESpawn c (fun r => k r;; Ret tt)],
               [waiting c (fun r => k r;; Ret tt)])
  | Spawn inner k =>
      let '(t1, d1) := start inner in
      let '(t2, d2) := start k in
      ((t1 ++ t2)%list, (d1 ++ d2)%list)
  | Log m k =>
      let '(t, d) := start k in
      (ELog m :: t, d)
  end.

(** The network: what a call gives, given everything that happened
    before it. *)
Definition Network : Type := list Event -> forall c : Call, Error + resp c.

(** [run net p h]: the events of [p] started after history [h], up to
    the point where [p] gives its outcome to its caller, and that outcome:
    the value it returns ([inr]) or the exception it throws ([inl]).  This
    is the run of [p] as long as no dropped promise settles; the settling
    of dropped promises is part of [process], below. *)
Fixpoint run {A : Type} (net : Network) (p : Prog A) (h : list Event)
  : list Event * (Error + A) :=
  match p with
  | Ret a => ([], inr a)
  | Throw e => ([], inl e)
  | Do c k =>
      let r := net h c in
      let '(t, res) := run net (k r) (h ++ [ECall c r]) in
      (ECall c r :: t, res)
  | Spawn task k =>
      let started := fst (start task) in
      let '(t, res) := run net k (h ++ started) in
      ((started ++ t)%list, res)
  | Log m k =>
      let '(t, res) := run net k (h ++ [ELog m]) in
      (ELog m :: t, res)
  end.

(** ** The process

    [run] follows one function up to its outcome.  The Node process that
    runs it does more: while the program waits for the answer of a call,
    promises that were left behind may settle and the functions that wait
    for them go on; a rejection that nothing handles ends the process
    (exit code 1) on the spot; and the process only ends when nothing is
    left waiting. *)

(** How a process ends: the program returned, it threw, or the process
    died of a rejection that nothing handles. *)
Inductive Exit (A : Type) : Type :=
| Returned (a : A)
| Threw (e : Error)
| Died (e : Error).

Arguments Returned {A} a.
Arguments Threw {A} e.
Arguments Died {A} e.

(** The schedule: which of the promises left behind settle, and in which
    order, while the program waits for the answer of a call, given
    everything that happened before.  Each number is a position in the
    list of the promises left behind at that moment; a number past its
    end settles nothing. *)
Definition Schedule : Type := list Event -> list nat.

(** The rejection, if there is one, among the promises left behind. *)
Fixpoint doomed (dropped : list Dropped) : option Error :=
  match dropped with
  | [] => None
  | rejected e :: _ => Some e
  | waiting _ _ :: rest => doomed rest
  end.

Definition remove_nth {X : Type} (i : nat) (l : list X) : list X :=
  (firstn i l ++ skipn (S i) l)%list.

(** [settle_idx net positions dropped h]: the promises at [positions]
    settle one after the other: the call answers, and the function that
    waited for it goes on to its next [await].  It gives the events, the
    promises left behind afterwards, and the rejection that ended the
    process if one did. *)
Fixpoint settle_idx (net : Network) (positions : list nat)
    (dropped : list Dropped) (h : list Event)
  : list Event * list Dropped * option Error :=
  match positions with
  | [] => ([], dropped, None)
  | i :: later =>
      match nth_error dropped i with
      | Some (waiting c k) =>
          let r := net h c in
          let '(t, d) := start (k r) in
          let left := (remove_nth i dropped ++ d)%list in
          match doomed d with
          | Some e => (ESettle c r :: t, left, Some e)
          | None =>
              let '(t', left', death) :=
                settle_idx net later left (h ++ ESettle c r :: t) in
              ((ESettle c r :: t ++ t')%list, left', death)
          end
      | Some (rejected e) => ([], dropped, Some e)
      | None => settle_idx net later dropped h
      end
  end.

(** What happens while the program waits: a promise that is rejected
    already ends the process; otherwise the promises that the schedule
    names settle. *)
Definition settle (net : Network) (sched : Schedule)
    (dropped : list Dropped) (h : list Event)
  : list Event * list Dropped * option Error :=
  match dropped with
  | [] => ([], [], None)
  | _ =>
      match doomed dropped with
      | Some e => ([], dropped, Some e)
      | None => settle_idx net (sched h) dropped h
      end
  end.

(** [live net sched p dropped h]: the program [p] in the process, with
    the promises [dropped] left behind before it: its events and those of
    the promises that settle meanwhile, how it ends, and the promises left
    behind at its end. *)
Fixpoint live {A : Type} (net : Network) (sched : Schedule) (p : Prog A)
    (dropped : list Dropped) (h : list Event)
  : list Event * Exit A * list Dropped :=
  match p with
  | Ret a => ([], Returned a, dropped)
  | Throw e => ([], Threw e, dropped)
  | Do c k =>
      let '(t0, dropped', death) := settle net sched dropped h in
      match death with
      | Some e => ((t0 ++ [EAbandoned c])%list, Died e, dropped')
      | None =>
          let r := net (h ++ t0)%list c in
          let '(t, x, d) :=
            live net sched (k r) dropped' (h ++ t0 ++ [ECall c r]) in
          ((t0 ++ ECall c r :: t)%list, x, d)
      end
  | Spawn task k =>
      let '(t0, d0) := start task in
      let '(t, x, d) := live net sched k (dropped ++ d0) (h ++ t0) in
      ((t0 ++ t)%list, x, d)
  | Log m k =>
      let '(t, x, d) := live net sched k dropped (h ++ [ELog m]) in
      (ELog m :: t, x, d)
  end.

(** A function left behind runs to its end, once the program is over:
    each of its calls is made and answers. *)
Fixpoint finish {A : Type} (net : Network) (task : Prog A) (h : list Event)
  : list Event * option Error :=
  match task with
  | Ret _ => ([], None)
  | Throw e => ([EUnhandled e], Some e)
  | Do c k =>
      let made := ESpawn c (fun r => k r;; Ret tt) in
      let r := net (h ++ [made])%list c in
      let '(t, death) := finish net (k r) (h ++ [made; ESettle c r]) in
      (made :: ESettle c r :: t, death)
  | Spawn inner k =>
      let '(t1, death) := finish net inner h in
      match death with
      | Some e => (t1, Some e)
      | None =>
          let '(t2, death') := finish net k (h ++ t1) in
          ((t1 ++ t2)%list, death')
      end
  | Log m k =>
      let '(t, death) := finish net k (h ++ [ELog m]) in
      (ELog m :: t, death)
  end.

(** The promises left behind at the end of the program settle, in the
    order they were left behind, before the process ends. *)
Fixpoint drain (net : Network) (dropped : list Dropped) (h : list Event)
  : list Event * option Error :=
  match dropped with
  | [] => ([], None)
  | rejected e :: _ => ([], Some e)
  | waiting c k :: rest =>
      let r := net h c in
      let '(t, death) := finish net (k r) (h ++ [ESettle c r]) in
      match death with
      | Some e => (ESettle c r :: t, Some e)
      | None =>
          let '(t', death') := drain net rest (h ++ ESettle c r :: t) in
          ((ESettle c r :: t ++ t')%list, death')
      end
  end.

(** [process net sched p h]: the process that runs [p], from its start to
    its end. *)
Definition process {A : Type} (net : Network) (sched : Schedule)
    (p : Prog A) (h : list Event) : list Event * Exit A :=
  let '(t, x, dropped) := live net sched p [] h in
  match x with
  | Died e => (t, Died e)
  | _ =>
      let '(t', death) := drain net dropped (h ++ t) in
      ((t ++ t')%list,
       match death with
       | Some e => Died e
       | None => x
       end)
  end.

(** A program that calls no function without awaiting it. *)
Inductive spawn_free {A : Type} : Prog A -> Prop :=
| spawn_free_Ret : forall a, spawn_free (Ret a)
| spawn_free_Throw : forall e, spawn_free (Throw e)
| spawn_free_Do : forall c k,
    (forall r, spawn_free (k r)) -> spawn_free (Do c k)
| spawn_free_Log : forall m k, spawn_free k -> spawn_free (Log m k).

(** The positions that follow the first 0 of a schedule, if it has one. *)
Fixpoint after_first_zero (positions : list nat) : option (list nat) :=
  match positions with
  | [] => None
  | O :: later => Some later
  | S _ :: later => after_first_zero later
  end.

(** ** functions/utils.js *)

(** Every caller leaves [cluster] and [commitment] to their defaults. *)
Definition establishConnection : Connection :=
  {| cluster := "devnet"; commitment := "processed" |}.

(** [if (!connection) connection = establishConnection()]. *)
Definition or_default (connection : option Connection) : Connection :=
  match connection with
  | Some c => c
  | None => establishConnection
  end.

Definition createWallet : Prog Keypair := await Keypair_generate.

Definition requestAirdrop (connection : Connection)
    (walletPublicKey : PublicKey) (amount : Z) : Prog string :=
  airdropSignature <-
    await (conn_requestAirdrop connection walletPublicKey
             (amount * LAMPORTS_PER_SOL));;
  Ret airdropSignature.

Definition getBalance (connection : Connection) (publicKey : PublicKey)
  : Prog unit :=
  stakeBalance <- await (conn_getBalance connection publicKey);;
  console_log (log_balance stakeBalance).

Definition getStakeAccountStatus (connection : Connection)
    (stakeAccountPublicKey : PublicKey) : Prog unit :=
  stakeStatus <-
    await (conn_getStakeActivation connection stakeAccountPublicKey);;
  console_log (log_status (state stakeStatus)).

(** ** functions/core.js *)

Definition getValidators (connection : option Connection) : Prog unit :=
  let connection := or_default connection in
  va <- await (conn_getVoteAccounts connection);;
  let totalValidators := (List.length (current va) + List.length (delinquent va))%nat in
  console_log (log_validators totalValidators);;
  console_log (log_current_validators (List.length (current va))).

Record Keys : Type := { wallet : Keypair; stakeAccount : Keypair }.

(** [0.5 * LAMPORTS_PER_SOL]. *)
Definition amountUserWantsToStake : Z := LAMPORTS_PER_SOL / 2.

Definition createStakeAccount (connection : option Connection) : Prog Keys :=
  let connection := or_default connection in
  wallet <- createWallet;;
  let walletPublicKey := publicKey wallet in
  airdropSignature <- requestAirdrop connection walletPublicKey 1;;
  bh <- await (conn_getLatestBlockhash connection);;
  _ <- await (conn_confirmTransaction connection
                {| s_blockhash := blockhash bh;
                   s_lastValidBlockHeight := lastValidBlockHeight bh;
                   s_signature := airdropSignature |});;
  stakeAccount <- createWallet;;
  let stakeAccountPublicKey := publicKey stakeAccount in
  minimumRent <-
    await (conn_getMinimumBalanceForRentExemption connection
             StakeProgram_space);;
  let amountToStake := js_add minimumRent amountUserWantsToStake in
  let createStakeAccountTx :=
    StakeProgram_createAccount
      {| authorized := new_Authorized walletPublicKey walletPublicKey;
         fromPubkey := walletPublicKey;
         lamports := amountToStake;
         lockup := new_Lockup 0 0 walletPublicKey;
         stakePubkey := stakeAccountPublicKey |} in
  createStakeAccountTxId <-
    await (sendAndConfirmTransaction connection createStakeAccountTx
             [wallet; stakeAccount]);;
  console_log (log_created createStakeAccountTxId);;
  getBalance connection stakeAccountPublicKey;;
  getStakeAccountStatus connection stakeAccountPublicKey;;
  Ret {| wallet := wallet; stakeAccount := stakeAccount |}.

Record KeysWithValidatorKey : Type :=
  { k_wallet : Keypair;
    k_stakeAccount : Keypair;
    selectedValidatorPublicKey : PublicKey }.

(** [validators.current[0].votePubkey]: index 0 of an empty array is
    [undefined], and the property read of it throws. *)
Definition first_votePubkey (current : list VoteAccountInfo)
  : Error + string :=
  match nth_error current 0 with
  | Some selectedValidator => inr (votePubkey selectedValidator)
  | None =>
      inl (TypeError
             "Cannot read properties of undefined (reading 'votePubkey')")
  end.

Definition delegateStake (connection : option Connection)
  : Prog KeysWithValidatorKey :=
  let connection := or_default connection in
  createStakeAccountResult <- createStakeAccount (Some connection);;
  let wallet := wallet createStakeAccountResult in
  let stakeAccount := stakeAccount createStakeAccountResult in
  let walletPublicKey := publicKey wallet in
  let stakeAccountPublicKey := publicKey stakeAccount in
  validators <- await (conn_getVoteAccounts connection);;
  votePubkey <- lift (first_votePubkey (current validators));;
  selectedValidatorPublicKey <- lift (newPublicKey (js_string votePubkey));;
  let delegateTx :=
    StakeProgram_delegate
      {| d_stakePubkey := stakeAccountPublicKey;
         d_authorizedPubkey := walletPublicKey;
         d_votePubkey := selectedValidatorPublicKey |} in
  delegateTxId <-
    await (sendAndConfirmTransaction connection delegateTx [wallet]);;
  console_log (log_delegated selectedValidatorPublicKey delegateTxId);;
  detach (getStakeAccountStatus connection stakeAccountPublicKey);;
  Ret {| k_wallet := wallet;
         k_stakeAccount := stakeAccount;
         selectedValidatorPublicKey := selectedValidatorPublicKey |}.

Definition deactivateStake (connection : option Connection)
  : Prog KeysWithValidatorKey :=
  let connection := or_default connection in
  delegateStakeResult <- delegateStake (Some connection);;
  let wallet := k_wallet delegateStakeResult in
  let stakeAccount := k_stakeAccount delegateStakeResult in
  let walletPublicKey := publicKey wallet in
  let stakeAccountPublicKey := publicKey stakeAccount in
  let deactivateTx :=
    StakeProgram_deactivate
      {| x_stakePubkey := stakeAccountPublicKey;
         x_authorizedPubkey := walletPublicKey |} in
  deactivateTxId <-
    await (sendAndConfirmTransaction connection deactivateTx [wallet]);;
  console_log (log_deactivated deactivateTxId);;
  getStakeAccountStatus connection stakeAccountPublicKey;;
  Ret delegateStakeResult.

Definition withdrawStake (connection : option Connection)
  : Prog KeysWithValidatorKey :=
  let connection := or_default connection in
  deactivateStakeResult <- deactivateStake (Some connection);;
  let wallet := k_wallet deactivateStakeResult in
  let stakeAccount := k_stakeAccount deactivateStakeResult in
  let walletPublicKey := publicKey wallet in
  let stakeAccountPublicKey := publicKey stakeAccount in
  stakeBalance <- await (conn_getBalance connection stakeAccountPublicKey);;
  let withdrawTx :=
    StakeProgram_withdraw
      {| w_stakePubkey := stakeAccountPublicKey;
         w_authorizedPubkey := walletPublicKey;
         w_toPubkey := walletPublicKey;
         w_lamports := stakeBalance |} in
  withdrawTxId <-
    await (sendAndConfirmTransaction connection withdrawTx [wallet]);;
  console_log (log_withdrawn withdrawTxId);;
  getBalance connection stakeAccountPublicKey;;
  Ret deactivateStakeResult.

Definition getDelegatorsByValidator (connection : option Connection)
    (validatorPublicKey : PublicKeyInitData) : Prog unit :=
  let connection := or_default connection in
  STAKE_PROGRAM_ID <-
    lift (newPublicKey
            (js_string "Stake11111111111111111111111111111111111111"));;
  VOTE_PUB_KEY <- lift (newPublicKey validatorPublicKey);;
  accounts <-
    await (conn_getProgramAccounts connection STAKE_PROGRAM_ID
             [dataSize 200; memcmp 124 VOTE_PUB_KEY]);;
  console_log (log_delegators VOTE_PUB_KEY (List.length accounts));;
  match accounts with
  | first :: _ => console_log (log_sample first)
  | [] => Ret tt
  end.

(** ** The entry flows: mains/*.js and index.js *)

(** [try { await main() } catch (err) { console.error(label, err) }]. *)
Definition runMain (label : option string) (main : Prog unit) : Prog unit :=
  try_catch main (fun err => console_log (log_error label err)).

Module create_stake_account.
Definition main : Prog unit :=
  let connection := establishConnection in
  createStakeAccount (Some connection);; Ret tt.
Definition runMain : Prog unit := runMain None main.
End create_stake_account.

Module get_validators.
Definition main : Prog unit :=
  let connection := establishConnection in
  getValidators (Some connection).
Definition runMain : Prog unit := runMain (Some "Error Encountered: ") main.
End get_validators.

Module delegate_stake.
Definition main : Prog unit :=
  let connection := establishConnection in
  delegateStake (Some connection);; Ret tt.
Definition runMain : Prog unit := runMain (Some "Error Encountered: ") main.
End delegate_stake.

Module withdraw_stake.
Definition main : Prog unit :=
  let connection := establishConnection in
  withdrawStake (Some connection);; Ret tt.
Definition runMain : Prog unit := runMain None main.
End withdraw_stake.

Module get_delegators_by_validator.
(** [getDelegatorsByValidator(connection)]: the second argument is
    missing, so the parameter is [undefined]. *)
Definition main : Prog unit :=
  let connection := establishConnection in
  getDelegatorsByValidator (Some connection) js_undefined.
Definition runMain : Prog unit := runMain None main.
End get_delegators_by_validator.

Module index.
Definition main : Prog unit :=
  let connection := establishConnection in
  getValidators (Some connection);;
  r <- withdrawStake (Some connection);;
  getDelegatorsByValidator (Some connection)
    (js_PublicKey (selectedValidatorPublicKey r)).
Definition runMain : Prog unit := runMain (Some "Error Encountered: ") main.
End index.

(** ** Reading a trace *)

Inductive Stage : Type := Create | Delegate | Deactivate | Withdraw.

Definition stage_of (tx : Transaction) : Stage :=
  match tx with
  | StakeProgram_createAccount _ => Create
  | StakeProgram_delegate _ => Delegate
  | StakeProgram_deactivate _ => Deactivate
  | StakeProgram_withdraw _ => Withdraw
  end.

Definition lifecycle : list Stage := [Create; Delegate; Deactivate; Withdraw].

Definition fulfilled {A : Type} (r : Error + A) : bool :=
  match r with
  | inl _ => false
  | inr _ => true
  end.

(** The transactions submitted with [sendAndConfirmTransaction], in order,
    each with its signers. *)
Fixpoint submitted (t : list Event) : list (Transaction * list Keypair) :=
  match t with
  | [] => []
  | ECall (sendAndConfirmTransaction _ tx signers) _ :: rest =>
      (tx, signers) :: submitted rest
  | _ :: rest => submitted rest
  end.

(** The stage of every submitted transaction, with whether its
    confirmation came ([true]) or the submission was rejected ([false]). *)
Fixpoint confirmations (t : list Event) : list (Stage * bool) :=
  match t with
  | [] => []
  | ECall c r :: rest =>
      let ok := fulfilled r in
      match c with
      | sendAndConfirmTransaction _ tx _ =>
          (stage_of tx, ok) :: confirmations rest
      | _ => confirmations rest
      end
  | _ :: rest => confirmations rest
  end.

(** [InOrder expected cs]: the confirmations [cs] follow the stages
    [expected] from the first one on, none left out, and only the last of
    them may be a rejection. *)
Inductive InOrder : list Stage -> list (Stage * bool) -> Prop :=
| InOrder_stop : forall expected, InOrder expected []
| InOrder_rejected : forall s expected, InOrder (s :: expected) [(s, false)]
| InOrder_confirmed : forall s expected cs,
    InOrder expected cs -> InOrder (s :: expected) ((s, true) :: cs).


(** The fulfilled reads of the rent-exemption minimum: byte size asked
    for and amount reported. *)
Fixpoint rent_exemptions (t : list Event) : list (N * Z) :=
  match t with
  | [] => []
  | ECall c r :: rest =>
      match c return Error + resp c -> list (N * Z) with
      | conn_getMinimumBalanceForRentExemption _ dataLength =>
          fun r =>
            match r with
            | inr minimumRent => (dataLength, minimumRent) :: rent_exemptions rest
            | inl _ => rent_exemptions rest
            end
      | _ => fun _ => rent_exemptions rest
      end r
  | _ :: rest => rent_exemptions rest
  end.

(** The account queries made: program and filters. *)
Fixpoint queries (t : list Event)
  : list (PublicKey * list GetProgramAccountsFilter) :=
  match t with
  | [] => []
  | ECall (conn_getProgramAccounts _ programId filters) _ :: rest =>
      (programId, filters) :: queries rest
  | _ :: rest => queries rest
  end.

(** The accounts that the account queries returned. *)
Fixpoint returned (t : list Event) : list ProgramAccount :=
  match t with
  | [] => []
  | ECall c r :: rest =>
      match c return Error + resp c -> list ProgramAccount with
      | conn_getProgramAccounts _ _ _ =>
          fun r =>
            match r with
            | inr accounts => (accounts ++ returned rest)%list
            | inl _ => returned rest
            end
      | _ => fun _ => returned rest
      end r
  | _ :: rest => returned rest
  end.

(** [each_event P before t]: [P] holds of every event of [t] together with
    the events ahead of it, the latest first; [before] is what is ahead of
    [t]. *)
Fixpoint each_event (P : list Event -> Event -> Prop)
    (before : list Event) (t : list Event) : Prop :=
  match t with
  | [] => True
  | e :: rest => P before e /\ each_event P (e :: before) rest
  end.

(** After a rejected call nothing else happens, and the rejection is the
    outcome. *)
Fixpoint stops_at_rejection {A : Type} (t : list Event) (res : Error + A)
  : Prop :=
  match t with
  | [] => True
  | ECall _ (inl e) :: rest => rest = [] /\ res = inl e
  | _ :: rest => stops_at_rejection rest res
  end.

(** A program in which every call is awaited and no exception is caught. *)
Inductive awaited {A : Type} : Prog A -> Prop :=
| awaited_Ret : forall a, awaited (Ret a)
| awaited_Throw : forall e, awaited (Throw e)
| awaited_Do : forall c k,
    (forall e, k (inl e) = Throw e) ->
    (forall v, awaited (k (inr v))) ->
    awaited (Do c k)
| awaited_Spawn : forall task k, awaited k -> awaited (Spawn task k)
| awaited_Log : forall m k, awaited k -> awaited (Log m k).

(** A run in which a rejected [sendAndConfirmTransaction] is the last
    event, and its rejection the exception thrown. *)
Definition aborts_at_rejected_confirmation {A : Type}
    (out : list Event * (Error + A)) : Prop :=
  forall pre connection tx signers e post,
    fst out
    = (pre ++ ECall (sendAndConfirmTransaction connection tx signers) (inl e)
           :: post)%list ->
    post = [] /\ snd out = inl e.

(** A withdrawal is submitted right after the balance of the account it
    withdraws from was read, for the amount read, and when the first three
    stages are confirmed. *)
Definition withdraws_balance_just_read (before : list Event) (e : Event)
  : Prop :=
  match e with
  | ECall (sendAndConfirmTransaction connection (StakeProgram_withdraw p) _)
      _ =>
      exists earlier,
        before
        = ECall (conn_getBalance connection (w_stakePubkey p))
            (inr (w_lamports p)) :: earlier
        /\ confirmations (rev earlier)
           = [(Create, true); (Delegate, true); (Deactivate, true)]
  | _ => True
  end.

(** ** The RPC's account filters

    [getProgramAccounts] is answered by the RPC node.  Its two filters are
    taken as the node applies them: [dataSize] compares the length of the
    account data; [memcmp] compares the bytes given, all of them, with the
    data from [offset] on, and fails when the data ends before they do. *)

Fixpoint bytes_eqb (a b : list byte) : bool :=
  match a, b with
  | [], [] => true
  | x :: a', y :: b' => Byte.eqb x y && bytes_eqb a' b'
  | _, _ => false
  end.

Definition filter_accepts (data : list byte) (f : GetProgramAccountsFilter)
  : bool :=
  match f with
  | dataSize size => (N.of_nat (List.length data) =? size)%N
  | memcmp offset pk =>
      let bs := toBytes pk in
      let from_offset := skipn (N.to_nat offset) data in
      (N.to_nat offset <=? List.length data)%nat
      && (List.length bs <=? List.length from_offset)%nat
      && bytes_eqb (firstn (List.length bs) from_offset) bs
  end.

Definition filter_accept_data (a : ProgramAccount)
    (f : GetProgramAccountsFilter) : bool :=
  filter_accepts (data (account a)) f.

(** A network whose account queries return only accounts that pass every
    filter of the query. *)
Definition honours_filters (net : Network) : Prop :=
  forall h connection programId filters accounts,
    net h (conn_getProgramAccounts connection programId filters)
      = inr accounts ->
    Forall (fun a => forallb (filter_accept_data a) filters = true)
      accounts.

(** ** Networks to run the program on *)

Module Fixture.

Definition keypair (n : N) : Keypair :=
  {| publicKey := PublicKeyData n; secretKey := [] |}.

Definition validator : VoteAccountInfo :=
  {| votePubkey := "Vote111111111111111111111111111111111111111";
     nodePubkey := "11111111111111111111111111111111";
     activatedStake := 7 |}.

(** Every call succeeds; key pairs are numbered by the length of the
    history; account queries apply their filters to [accounts]. *)
Definition devnet (validators : list VoteAccountInfo)
    (accounts : list ProgramAccount) : Network :=
  fun h c =>
    match c return Error + resp c with
    | Keypair_generate => inr (keypair (N.of_nat (List.length h) + 1))
    | conn_requestAirdrop _ _ _ => inr "airdrop"
    | conn_getLatestBlockhash _ =>
        inr {| blockhash := "blockhash"; lastValidBlockHeight := 100 |}
    | conn_confirmTransaction _ _ => inr {| err := None |}
    | conn_getMinimumBalanceForRentExemption _ _ => inr 2282880
    | sendAndConfirmTransaction _ _ _ => inr "signature"
    | conn_getBalance _ _ => inr 502282880
    | conn_getStakeActivation _ _ =>
        inr {| state := "inactive"; active := 0; inactive := 502282880 |}
    | conn_getVoteAccounts _ =>
        inr {| current := validators; delinquent := [] |}
    | conn_getProgramAccounts _ _ filters =>
        inr (filter (fun a => forallb (filter_accept_data a) filters)
               accounts)
    end.

(** The key that [votePubkey validator] decodes to. *)
Definition vote_key : PublicKey :=
  PublicKeyData
    3338071818571248938818993247932504658966148473698877128351861063997718528000.

Definition stake_record (n : nat) (validator : PublicKey) : ProgramAccount :=
  {| pubkey := PublicKeyData (N.of_nat n);
     account :=
       {| executable := false;
          owner := PublicKeyData 0;
          a_lamports := 502282880;
          data := (repeat x00 124 ++ toBytes validator
                   ++ repeat x00 (n - 156))%list |} |}.

(** A stake account delegated to [vote_key], a shorter record with the
    key at the same place, and a stake account of another validator. *)
Definition accounts : list ProgramAccount :=
  [stake_record 200 vote_key; stake_record 180 vote_key;
   stake_record 200 (PublicKeyData 5)].

Definition expired : Error :=
  RpcError (-32002) "block height exceeded".

(** As [net], but the call made after [n] events is rejected. *)
Definition rejecting (n : nat) (net : Network) : Network :=
  fun h c => if Nat.eqb (List.length h) n then inl expired else net h c.

End Fixture.

(** The stake program, as the key that its base-58 name decodes to. *)
Definition STAKE_PROGRAM_ID : PublicKey :=
  PublicKeyData
    2999830881511641543315636960581363899061052244619701952529276772483092971520.

(** ** Further readings of a trace *)

(** The key pairs that [Keypair.generate] gave, in order. *)
Fixpoint generated (t : list Event) : list Keypair :=
  match t with
  | [] => []
  | ECall c r :: rest =>
      match c return Error + resp c -> list Keypair with
      | Keypair_generate =>
          fun r =>
            match r with
            | inr kp => kp :: generated rest
            | inl _ => generated rest
            end
      | _ => fun _ => generated rest
      end r
  | _ :: rest => generated rest
  end.

(** The connection a call is made on; [Keypair.generate] has none. *)
Definition connection_of (c : Call) : option Connection :=
  match c with
  | Keypair_generate => None
  | conn_requestAirdrop connection _ _ => Some connection
  | conn_getLatestBlockhash connection => Some connection
  | conn_confirmTransaction connection _ => Some connection
  | conn_getMinimumBalanceForRentExemption connection _ => Some connection
  | sendAndConfirmTransaction connection _ _ => Some connection
  | conn_getBalance connection _ => Some connection
  | conn_getStakeActivation connection _ => Some connection
  | conn_getVoteAccounts connection => Some connection
  | conn_getProgramAccounts connection _ _ => Some connection
  end.

(** The calls made, awaited or not, in order. *)
Fixpoint calls (t : list Event) : list Call :=
  match t with
  | [] => []
  | ECall c _ :: rest => c :: calls rest
  | ESpawn c _ :: rest => c :: calls rest
  | _ :: rest => calls rest
  end.

(** The connections that the calls of a trace were made on. *)
Fixpoint connections (t : list Event) : list Connection :=
  match t with
  | [] => []
  | e :: rest =>
      match e with
      | ECall c _ | ESpawn c _ | ESettle c _ | EAbandoned c =>
          match connection_of c with
          | Some connection => connection :: connections rest
          | None => connections rest
          end
      | ELog _ | EUnhandled _ => connections rest
      end
  end.

(** The lines written, in order. *)
Fixpoint logged (t : list Event) : list LogMsg :=
  match t with
  | [] => []
  | ELog m :: rest => m :: logged rest
  | _ :: rest => logged rest
  end.

(** The last event of a trace. *)
Fixpoint final (t : list Event) : option Event :=
  match t with
  | [] => None
  | [e] => Some e
  | _ :: rest => final rest
  end.

(** [each_next P t]: [P] holds of every event of [t] together with the
    events that come after it. *)
Fixpoint each_next (P : Event -> list Event -> Prop) (t : list Event)
  : Prop :=
  match t with
  | [] => True
  | e :: rest => P e rest /\ each_next P rest
  end.

(** The identities a transaction of the lifecycle is built from: the
    wallet pays, is the only authority and receives the withdrawal; the
    stake account signs its own creation only. *)
Definition built_from (wallet stakeAccount : Keypair) (tx : Transaction)
    (signers : list Keypair) : Prop :=
  match tx with
  | StakeProgram_createAccount p =>
      signers = [wallet; stakeAccount]
      /\ fromPubkey p = publicKey wallet
      /\ stakePubkey p = publicKey stakeAccount
  | StakeProgram_delegate p =>
      signers = [wallet]
      /\ d_stakePubkey p = publicKey stakeAccount
      /\ d_authorizedPubkey p = publicKey wallet
  | StakeProgram_deactivate p =>
      signers = [wallet]
      /\ x_stakePubkey p = publicKey stakeAccount
      /\ x_authorizedPubkey p = publicKey wallet
  | StakeProgram_withdraw p =>
      signers = [wallet]
      /\ w_stakePubkey p = publicKey stakeAccount
      /\ w_authorizedPubkey p = publicKey wallet
      /\ w_toPubkey p = publicKey wallet
  end.

(** The airdrop is confirmed right after the wallet was generated, the
    airdrop of one SOL to it requested and the latest blockhash read, with
    the signature and the blockhash these gave. *)
Definition confirms_airdrop_requested (before : list Event) (e : Event)
  : Prop :=
  match e with
  | ECall (conn_confirmTransaction connection strategy) _ =>
      exists wallet airdropSignature bh,
        before
        = [ECall (conn_getLatestBlockhash connection) (inr bh);
           ECall (conn_requestAirdrop connection (publicKey wallet)
                    LAMPORTS_PER_SOL) (inr airdropSignature);
           ECall Keypair_generate (inr wallet)]
        /\ strategy
           = {| s_blockhash := blockhash bh;
                s_lastValidBlockHeight := lastValidBlockHeight bh;
                s_signature := airdropSignature |}
  | _ => True
  end.

(** After a fulfilled [confirmTransaction], whatever its value, the next
    event is the generation of a key pair. *)
Definition goes_on_after_confirmation (e : Event) (after : list Event)
  : Prop :=
  match e with
  | ECall c r =>
      match c with
      | conn_confirmTransaction _ _ =>
          fulfilled r = true ->
          exists kp after', after = ECall Keypair_generate kp :: after'
      | _ => True
      end
  | _ => True
  end.

(** After a confirmed delegation: the line that reports it, the status
    read started in a function that is not awaited, which will log the
    status when the read answers and throw when it is rejected, and the
    return of the stage with the validator delegated to. *)
Definition returns_after_delegation (res : Error + KeysWithValidatorKey)
    (e : Event) (after : list Event) : Prop :=
  match e with
  | ECall c r =>
      match c return Error + resp c -> Prop with
      | sendAndConfirmTransaction connection (StakeProgram_delegate p) _ =>
          fun r =>
            match r with
            | inr delegateTxId =>
                exists task,
                  after
                  = [ELog (log_delegated (d_votePubkey p) delegateTxId);
                     ESpawn (conn_getStakeActivation connection
                               (d_stakePubkey p)) task]
                  /\ (forall status,
                         task (inr status)
                         = Log (log_status (state status)) (Ret tt))
                  /\ (forall e, task (inl e) = Throw e)
                  /\ exists keys,
                      res = inr keys
                      /\ selectedValidatorPublicKey keys = d_votePubkey p
            | inl _ => True
            end
      | _ => fun _ => True
      end r
  | _ => True
  end.

(** An account query comes after the four stages were confirmed, on the
    stake program, for the validator of the delegation submitted. *)
Definition scans_validator_delegated_to (before : list Event) (e : Event)
  : Prop :=
  match e with
  | ECall (conn_getProgramAccounts _ programId filters) _ =>
      programId = STAKE_PROGRAM_ID
      /\ confirmations (rev before)
         = [(Create, true); (Delegate, true); (Deactivate, true);
            (Withdraw, true)]
      /\ exists p signers,
          In (StakeProgram_delegate p, signers) (submitted (rev before))
          /\ filters = [dataSize 200; memcmp 124 (d_votePubkey p)]
  | _ => True
  end.

(** A run in which a rejected call, whichever, is the last event, and its
    rejection the exception thrown. *)
Definition aborts_at_rejected_call {A : Type}
    (out : list Event * (Error + A)) : Prop :=
  forall pre c e post,
    fst out = (pre ++ ECall c (inl e) :: post)%list ->
    post = [] /\ snd out = inl e.

(** The last [n] events of a trace. *)
Definition ending (n : nat) (t : list Event) : list Event :=
  skipn (List.length t - n) t.


(** ** Further networks to run the program on *)

Module Scenario.

(** The confirmation of the airdrop is fulfilled and says that the
    airdrop failed. *)
Definition failed_airdrop : Network :=
  fun h c =>
    match c return Error + resp c with
    | conn_confirmTransaction _ _ =>
        inr {| err := Some "InsufficientFundsForFee" |}
    | c => Fixture.devnet [Fixture.validator] [] h c
    end.

(** The rent-exemption minimum reported is [minimumRent]. *)
Definition rent (minimumRent : Z) : Network :=
  fun h c =>
    match c return Error + resp c with
    | conn_getMinimumBalanceForRentExemption _ _ => inr minimumRent
    | c => Fixture.devnet [Fixture.validator] [] h c
    end.

(** A validator whose vote key is no base-58 text. *)
Definition misnamed_validator : VoteAccountInfo :=
  {| votePubkey := "0OIl"; nodePubkey := ""; activatedStake := 0 |}.

(** The validator set read by [getValidators], the first read, differs
    from the one read by [delegateStake], the second. *)
Definition changing_validators : Network :=
  fun h c =>
    match c return Error + resp c with
    | conn_getVoteAccounts _ =>
        match h with
        | [] => inr {| current := []; delinquent := [Fixture.validator] |}
        | _ => inr {| current := [Fixture.validator]; delinquent := [] |}
        end
    | c => Fixture.devnet [] Fixture.accounts h c
    end.

End Scenario.

(** * Properties of runs *)

Arguments newPublicKey : simpl never.
Arguments toBytes : simpl never.

Lemma STAKE_PROGRAM_ID_decoded :
  newPublicKey (js_string "Stake11111111111111111111111111111111111111")
  = inr STAKE_PROGRAM_ID.
Proof. vm_compute. reflexivity. Qed.

Section Runs.

Variable net : Network.

(** The run of [x <- p;; f x]: the run of [p], and when [p] returns,
    the run of [f] on what it returned, started where [p] ended. *)
Lemma run_bind (A B : Type) (p : Prog A) (f : A -> Prog B) :
  forall h,
    run net (bind p f) h =
    match run net p h with
    | (t1, inl e) => (t1, inl e)
    | (t1, inr a) =>
        let '(t2, res) := run net (f a) (h ++ t1) in ((t1 ++ t2)%list, res)
    end.
Proof.
  revert B f.
  induction p as [A a | A e | A c k IH | A task _ k IH | A m k IH];
    intros B f h; simpl.
  - rewrite app_nil_r. destruct (run net (f a) h); reflexivity.
  - reflexivity.
  - rewrite IH. destruct (run net (k (net h c)) _) as [t1 [e | a]].
    + reflexivity.
    + rewrite <- app_assoc. simpl.
      destruct (run net (f a) _). reflexivity.
  - rewrite IH. destruct (run net k _) as [t1 [e | a]].
    + reflexivity.
    + rewrite <- app_assoc.
      destruct (run net (f a) _). now rewrite app_assoc.
  - rewrite IH. destruct (run net k _) as [t1 [e | a]].
    + reflexivity.
    + rewrite <- app_assoc. simpl.
      destruct (run net (f a) _). reflexivity.
Qed.

End Runs.

(** Symbolic execution of a run: the next thing the run depends on is the
    answer of the network to the call at the head, the first validator, or
    a key to construct; take each case of it. *)
Ltac exec_step net :=
  match goal with
  | |- context [net ?h ?c] => destruct (net h c) eqn:?
  | |- context [first_votePubkey ?l] =>
      unfold first_votePubkey; destruct l eqn:?
  | |- context [newPublicKey ?v] => destruct (newPublicKey v) eqn:?
  end.

Ltac exec net := cbn; repeat (exec_step net; cbn).

Ltac unfold_stages :=
  unfold withdrawStake, deactivateStake, delegateStake, createStakeAccount,
    getBalance, getStakeAccountStatus, requestAirdrop, createWallet,
    await, console_log.

(** ** The delegator scan *)

(** C10. The entry flow of [mains/get_delegators_by_validator.js] calls
    the scan without a validator key.  Constructing the key from
    [undefined] throws; the scan ends there having made no call at all, so
    no account query, and the entry flow catches the exception, logs it
    and returns. *)
Theorem scan_without_key_is_caught_and_logged :
  forall (net : Network) (h : list Event),
    let e := TypeError "Cannot read properties of undefined (reading '_bn')" in
    newPublicKey js_undefined = inl e
    /\ run net (getDelegatorsByValidator (Some establishConnection)
                  js_undefined) h
       = ([], inl e)
    /\ run net get_delegators_by_validator.main h = ([], inl e)
    /\ run net get_delegators_by_validator.runMain h
       = ([ELog (log_error None e)], inr tt).
Proof.
  intros net h e. repeat split.
  all: unfold get_delegators_by_validator.runMain, runMain,
         get_delegators_by_validator.main, getDelegatorsByValidator.
  all: cbn; rewrite STAKE_PROGRAM_ID_decoded; reflexivity.
Qed.

(** C7. A scan whose account query returns no account logs the count 0 and
    nothing else, and returns without an exception. *)
Theorem scan_with_no_match_reports_zero :
  forall (connection : option Connection) (validatorPublicKey : PublicKeyInitData)
         (VOTE_PUB_KEY : PublicKey) (net : Network) (h : list Event),
    let query :=
      conn_getProgramAccounts (or_default connection) STAKE_PROGRAM_ID
        [dataSize 200; memcmp 124 VOTE_PUB_KEY] in
    newPublicKey validatorPublicKey = inr VOTE_PUB_KEY ->
    net h query = inr [] ->
    run net (getDelegatorsByValidator connection validatorPublicKey) h
    = ([ECall query (inr []); ELog (log_delegators VOTE_PUB_KEY 0)], inr tt).
Proof.
  intros connection vk pk net h query Hkey Hnone.
  unfold getDelegatorsByValidator. cbn.
  rewrite STAKE_PROGRAM_ID_decoded. cbn.
  rewrite Hkey. cbn. fold query. rewrite Hnone. reflexivity.
Qed.

Lemma scan_with_no_match_reports_zero_run :
  run (Fixture.devnet [] []) (getDelegatorsByValidator None
         (js_string "Vote111111111111111111111111111111111111111")) []
  = ([ECall (conn_getProgramAccounts establishConnection STAKE_PROGRAM_ID
               [dataSize 200; memcmp 124 Fixture.vote_key])
        (inr []);
      ELog (log_delegators Fixture.vote_key 0)],
     inr tt).
Proof.
  apply (scan_with_no_match_reports_zero None
           (js_string "Vote111111111111111111111111111111111111111")
           (Fixture.devnet [] []) []).
  - vm_compute. reflexivity.
  - reflexivity.
Defined.

Lemma bytes_eqb_eq (a b : list byte) : bytes_eqb a b = true <-> a = b.
Proof.
  revert b. induction a as [| x a IH]; intros [| y b]; simpl;
    try (split; [discriminate | discriminate]); try tauto.
  rewrite andb_true_iff, IH. split.
  - intros [Hxy ->]. apply Byte.byte_dec_bl in Hxy. now subst.
  - intros H. injection H as -> ->. split; auto using Byte.byte_dec_lb.
Qed.

Lemma le_bytes_length (len : nat) : forall n, List.length (le_bytes len n) = len.
Proof. induction len; intros n; simpl; auto. Qed.

Lemma toBytes_length (pk : PublicKey) : List.length (toBytes pk) = 32%nat.
Proof. unfold toBytes. now rewrite length_rev, le_bytes_length. Qed.

(** The two filters of the scan, as the RPC applies them. *)
Lemma scan_filters_exact (pk : PublicKey) (data : list byte) :
  forallb (filter_accepts data) [dataSize 200; memcmp 124 pk] = true
  <-> List.length data = 200%nat /\ firstn 32 (skipn 124 data) = toBytes pk.
Proof.
  unfold forallb, filter_accepts.
  rewrite andb_true_r, !andb_true_iff, N.eqb_eq, !Nat.leb_le, bytes_eqb_eq.
  rewrite toBytes_length, length_skipn.
  replace (N.to_nat 124) with 124%nat by reflexivity.
  split.
  - intros (Hlen & _ & Heq). split; [lia | exact Heq].
  - intros (Hlen & Heq). rewrite Hlen.
    repeat split; try exact Heq; lia.
Qed.

Lemma devnet_honours_filters validators accounts :
  honours_filters (Fixture.devnet validators accounts).
Proof.
  intros h connection programId filters found Hfound.
  simpl in Hfound. injection Hfound as <-.
  apply Forall_forall. intros a Ha. apply filter_In in Ha. tauto.
Qed.

(** C5. The scan makes one account query, on the stake program, and its
    filters accept a record exactly when the record is 200 bytes long and
    its 32 bytes from offset 124 on are the 32 bytes of the validator's
    key.  On a network that applies the filters, every account the query
    returns is such a record. *)
Theorem scan_matches_200_bytes_with_key_at_124 :
  forall (connection : option Connection)
         (validatorPublicKey : PublicKeyInitData) (VOTE_PUB_KEY : PublicKey)
         (net : Network) (h : list Event),
    newPublicKey validatorPublicKey = inr VOTE_PUB_KEY ->
    let t :=
      fst (run net (getDelegatorsByValidator connection validatorPublicKey) h)
    in
    let matches (data : list byte) :=
      List.length data = 200%nat
      /\ firstn 32 (skipn 124 data) = toBytes VOTE_PUB_KEY in
    List.length (toBytes VOTE_PUB_KEY) = 32%nat
    /\ (exists filters,
          queries t = [(STAKE_PROGRAM_ID, filters)]
          /\ forall data,
               forallb (filter_accepts data) filters = true <-> matches data)
    /\ (honours_filters net ->
        forall a, In a (returned t) -> matches (data (account a))).
Proof.
  intros connection vk pk net h Hkey t matches. subst t.
  split; [apply toBytes_length |].
  unfold getDelegatorsByValidator. cbn.
  rewrite STAKE_PROGRAM_ID_decoded. cbn. rewrite Hkey. cbn.
  split.
  - exists [dataSize 200; memcmp 124 pk]. split.
    + destruct (net h _) as [e | [| first others]]; reflexivity.
    + intros data. apply scan_filters_exact.
  - intros Hnet a.
    destruct (net h _) as [e | accounts] eqn:Hquery.
    + cbn. tauto.
    + apply Hnet in Hquery.
      assert (Hin : In a accounts -> matches (data (account a))).
      { intros Ha. rewrite Forall_forall in Hquery.
        apply (proj1 (scan_filters_exact pk (data (account a)))).
        exact (Hquery a Ha). }
      destruct accounts as [| first others]; cbn; rewrite ?app_nil_r; exact Hin.
Qed.

Lemma scan_matches_200_bytes_with_key_at_124_run :
  let t :=
    fst (run (Fixture.devnet [] Fixture.accounts)
           (getDelegatorsByValidator None (js_PublicKey Fixture.vote_key)) [])
  in
  returned t = [Fixture.stake_record 200 Fixture.vote_key]
  /\ List.length (data (account (Fixture.stake_record 200 Fixture.vote_key)))
     = 200%nat
  /\ firstn 32
       (skipn 124 (data (account (Fixture.stake_record 200 Fixture.vote_key))))
     = toBytes Fixture.vote_key.
Proof.
  intros t.
  destruct (scan_matches_200_bytes_with_key_at_124 None
              (js_PublicKey Fixture.vote_key)
              (Fixture.devnet [] Fixture.accounts) [] eq_refl)
    as (_ & _ & Hreturned).
  split; [vm_compute; reflexivity |].
  apply Hreturned.
  - apply devnet_honours_filters.
  - vm_compute. left. reflexivity.
Defined.

(** ** Creating the stake account *)

(** C1. Whatever the network answers, a transaction that
    [createStakeAccount] submits is the create-account instruction whose
    authorized staker and withdrawer are both the wallet's public key and
    whose lockup has timestamp 0, epoch 0 and the wallet's public key as
    custodian; the wallet is the key pair generated first.  A creation
    that returns has submitted exactly that instruction, for the wallet
    it returns. *)
Theorem createStakeAccount_authorized_and_lockup :
  forall (connection : option Connection) (net : Network) (h : list Event),
    let out := run net (createStakeAccount connection) h in
    let instruction (wallet stakeAccount : Keypair) (amountToStake : Z) :=
      StakeProgram_createAccount
        {| authorized :=
             new_Authorized (publicKey wallet) (publicKey wallet);
           fromPubkey := publicKey wallet;
           lamports := amountToStake;
           lockup := new_Lockup 0 0 (publicKey wallet);
           stakePubkey := publicKey stakeAccount |} in
    (forall tx signers,
        In (tx, signers) (submitted (fst out)) ->
        exists wallet stakeAccount amountToStake,
          net h Keypair_generate = inr wallet
          /\ signers = [wallet; stakeAccount]
          /\ tx = instruction wallet stakeAccount amountToStake)
    /\ (forall keys,
           snd out = inr keys ->
           net h Keypair_generate = inr (wallet keys)
           /\ exists amountToStake,
               submitted (fst out)
               = [(instruction (wallet keys) (stakeAccount keys) amountToStake,
                   [wallet keys; stakeAccount keys])]).
Proof.
  intros connection net h out instruction. subst out instruction.
  unfold_stages. split.
  - intros tx signers. exec net; intros Hin; try contradiction.
    all: destruct Hin as [Hin | []]; injection Hin as <- <-; eauto 6.
  - intros keys. exec net; intros Hret; try discriminate.
    injection Hret as <-. cbn. eauto.
Qed.

Lemma createStakeAccount_authorized_and_lockup_run :
  let net := Fixture.devnet [] [] in
  let keys :=
    {| wallet := Fixture.keypair 1; stakeAccount := Fixture.keypair 5 |} in
  snd (run net (createStakeAccount None) []) = inr keys
  /\ net [] Keypair_generate = inr (wallet keys)
  /\ exists amountToStake,
       submitted (fst (run net (createStakeAccount None) []))
       = [(StakeProgram_createAccount
             {| authorized :=
                  new_Authorized (publicKey (wallet keys))
                    (publicKey (wallet keys));
                fromPubkey := publicKey (wallet keys);
                lamports := amountToStake;
                lockup := new_Lockup 0 0 (publicKey (wallet keys));
                stakePubkey := publicKey (stakeAccount keys) |},
           [wallet keys; stakeAccount keys])].
Proof.
  intros net keys. split; [reflexivity |].
  exact (proj2 (createStakeAccount_authorized_and_lockup None net [])
           keys eq_refl).
Defined.

Lemma round_to_double_exact (z : Z) :
  Z.abs z <= 2 ^ 53 -> round_to_double z = z.
Proof.
  intros Hz. unfold round_to_double. cbv zeta.
  destruct (Z.ltb_spec (Z.abs z) (2 ^ 53)) as [Hlt | Hge]; [reflexivity |].
  assert (Hm : Z.abs z = 2 ^ 53) by lia.
  rewrite Hm.
  destruct (Z.abs_eq_or_opp z) as [Habs | Habs]; rewrite Habs in Hm.
  - rewrite Hm. reflexivity.
  - assert (Hneg : z = - 2 ^ 53) by lia. rewrite Hneg. reflexivity.
Qed.

Lemma js_add_exact (a b : Z) :
  Z.abs (a + b) <= 2 ^ 53 -> js_add a b = a + b.
Proof. apply round_to_double_exact. Qed.

(** C2, as the code has it.  The lamports of the create-account
    instruction are the JavaScript sum of the rent-exemption minimum that
    the network reported for the size of a stake account and half of
    [LAMPORTS_PER_SOL]; the minimum is read once in a run, and that read
    is the term of the sum.  When the minimum is not negative and the sum
    is at most 2^53, the lamports are the sum itself. *)
Theorem createStakeAccount_amount :
  forall (connection : option Connection) (net : Network) (h : list Event),
    let out := run net (createStakeAccount connection) h in
    2 * amountUserWantsToStake = LAMPORTS_PER_SOL
    /\ (forall tx signers,
           In (tx, signers) (submitted (fst out)) ->
           exists p minimumRent,
             tx = StakeProgram_createAccount p
             /\ rent_exemptions (fst out) = [(StakeProgram_space, minimumRent)]
             /\ lamports p = js_add minimumRent amountUserWantsToStake
             /\ (0 <= minimumRent ->
                 minimumRent + amountUserWantsToStake <= 2 ^ 53 ->
                 lamports p = minimumRent + amountUserWantsToStake))
    /\ (forall keys,
           snd out = inr keys ->
           exists p signers,
             submitted (fst out) = [(StakeProgram_createAccount p, signers)]).
Proof.
  intros connection net h out. subst out.
  split; [reflexivity |].
  unfold_stages. split.
  - intros tx signers. exec net; intros Hin; try contradiction.
    all: destruct Hin as [Hin | []]; injection Hin as <- <-.
    all: eexists; eexists; split; [reflexivity |].
    all: split; [reflexivity |]; split; [reflexivity |].
    all: intros Hmin Hsum; cbn; apply js_add_exact.
    all: change amountUserWantsToStake with 500000000 in Hsum; lia.
  - intros keys. exec net; intros Hret; try discriminate. eauto.
Qed.

Lemma createStakeAccount_amount_run :
  let out := run (Fixture.devnet [] []) (createStakeAccount None) [] in
  exists p,
    StakeProgram_createAccount
      {| authorized := new_Authorized (PublicKeyData 1) (PublicKeyData 1);
         fromPubkey := PublicKeyData 1;
         lamports := 502282880;
         lockup := new_Lockup 0 0 (PublicKeyData 1);
         stakePubkey := PublicKeyData 5 |}
    = StakeProgram_createAccount p
    /\ rent_exemptions (fst out) = [(StakeProgram_space, 2282880)]
    /\ lamports p = 2282880 + amountUserWantsToStake.
Proof.
  intros out.
  destruct (proj1 (proj2 (createStakeAccount_amount None
                            (Fixture.devnet [] []) []))
              (StakeProgram_createAccount
                 {| authorized :=
                      new_Authorized (PublicKeyData 1) (PublicKeyData 1);
                    fromPubkey := PublicKeyData 1;
                    lamports := 502282880;
                    lockup := new_Lockup 0 0 (PublicKeyData 1);
                    stakePubkey := PublicKeyData 5 |})
              [Fixture.keypair 1; Fixture.keypair 5])
    as (p & minimumRent & Htx & Hrent & _ & Hexact).
  - vm_compute. left. reflexivity.
  - assert (Hmin : minimumRent = 2282880).
    { change (rent_exemptions (fst out)) with [(StakeProgram_space, 2282880)]
        in Hrent.
      injection Hrent as <-. reflexivity. }
    subst minimumRent. exists p. split; [exact Htx |]. split; [exact Hrent |].
    apply Hexact.
    + discriminate.
    + discriminate.
Defined.

(** C2, where the sum is past 2^53.  For a reported minimum of
    9007198754740993 lamports the sum is 2^53 + 1, which no JavaScript
    number holds: the lamports submitted are 2^53, one less than the
    sum. *)
Lemma createStakeAccount_amount_below_the_sum :
  let minimumRent := 9007198754740993 in
  let out := run (Scenario.rent minimumRent) (createStakeAccount None) [] in
  exists p signers,
    submitted (fst out) = [(StakeProgram_createAccount p, signers)]
    /\ rent_exemptions (fst out) = [(StakeProgram_space, minimumRent)]
    /\ lamports p = 9007199254740992
    /\ lamports p < minimumRent + amountUserWantsToStake.
Proof.
  intros minimumRent out.
  exists {| authorized := new_Authorized (PublicKeyData 1) (PublicKeyData 1);
            fromPubkey := PublicKeyData 1;
            lamports := 9007199254740992;
            lockup := new_Lockup 0 0 (PublicKeyData 1);
            stakePubkey := PublicKeyData 5 |},
    [Fixture.keypair 1; Fixture.keypair 5].
  repeat split.
Qed.

(** ** Delegating *)

(** C8. When the creation has returned and the validator set fetched next
    has no current validator, [delegateStake] throws the [TypeError] of
    reading [votePubkey] of [undefined]: the read of the validator set is
    the last thing it does, and no check stands before the read. *)
Theorem delegateStake_without_validators :
  forall (connection : option Connection) (net : Network) (h t : list Event)
         (keys : Keys) (validators : VoteAccountStatus),
    run net (createStakeAccount connection) h = (t, inr keys) ->
    net (h ++ t)%list (conn_getVoteAccounts (or_default connection))
    = inr validators ->
    current validators = [] ->
    run net (delegateStake connection) h
    = ((t ++ [ECall (conn_getVoteAccounts (or_default connection))
                (inr validators)])%list,
       inl (TypeError
              "Cannot read properties of undefined (reading 'votePubkey')")).
Proof.
  intros connection net h t keys validators Hcreate Hfetch Hnone.
  unfold delegateStake. cbv zeta. rewrite run_bind.
  change (createStakeAccount (Some (or_default connection)))
    with (createStakeAccount connection).
  rewrite Hcreate. unfold await. cbn.
  rewrite Hfetch. cbn. rewrite Hnone. reflexivity.
Qed.

Lemma delegateStake_without_validators_run :
  let net := Fixture.devnet [] [] in
  snd (run net (delegateStake None) [])
  = inl (TypeError
           "Cannot read properties of undefined (reading 'votePubkey')")
  /\ submitted (fst (run net (delegateStake None) []))
     = submitted (fst (run net (createStakeAccount None) [])).
Proof.
  intros net.
  rewrite (delegateStake_without_validators None net []
             (validators := {| current := []; delinquent := [] |})
             eq_refl eq_refl eq_refl).
  split; reflexivity.
Defined.

(** ** What a stage returns *)

(** C9. [delegateStake] returns the wallet and the stake account that its
    creation returned, with the key constructed from the vote key of the
    first current validator; [deactivateStake] returns what its
    [delegateStake] returned, and [withdrawStake] what its
    [deactivateStake] returned.  Each stage begins with the whole run of
    the stage before it. *)
Theorem stages_return_state_of_predecessor :
  forall (connection : option Connection) (net : Network) (h : list Event),
    (forall t r,
        run net (delegateStake connection) h = (t, inr r) ->
        exists t1 keys t2 validators selectedValidator,
          run net (createStakeAccount connection) h = (t1, inr keys)
          /\ t = (t1 ++ t2)%list
          /\ k_wallet r = wallet keys
          /\ k_stakeAccount r = stakeAccount keys
          /\ net (h ++ t1)%list (conn_getVoteAccounts (or_default connection))
             = inr validators
          /\ nth_error (current validators) 0 = Some selectedValidator
          /\ newPublicKey (js_string (votePubkey selectedValidator))
             = inr (selectedValidatorPublicKey r))
    /\ (forall t r,
           run net (deactivateStake connection) h = (t, inr r) ->
           exists t1 t2,
             run net (delegateStake connection) h = (t1, inr r)
             /\ t = (t1 ++ t2)%list)
    /\ (forall t r,
           run net (withdrawStake connection) h = (t, inr r) ->
           exists t1 t2,
             run net (deactivateStake connection) h = (t1, inr r)
             /\ t = (t1 ++ t2)%list).
Proof.
  intros connection net h. repeat split.
  - intros t r. unfold delegateStake. cbv zeta. rewrite run_bind.
    change (createStakeAccount (Some (or_default connection)))
      with (createStakeAccount connection).
    destruct (run net (createStakeAccount connection) h) as [t1 [e | keys]];
      [discriminate |].
    unfold_stages. exec net; intros Hrun; try discriminate.
    injection Hrun as <- <-.
    match goal with
    | Hl : current _ = _ :: _ |- _ =>
        do 5 eexists; repeat split; try eassumption; rewrite ?Hl; reflexivity
    end.
  - intros t r. unfold deactivateStake. cbv zeta. rewrite run_bind.
    change (delegateStake (Some (or_default connection)))
      with (delegateStake connection).
    destruct (run net (delegateStake connection) h) as [t1 [e | r1]];
      [discriminate |].
    unfold_stages. exec net; intros Hrun; try discriminate.
    injection Hrun as <- <-. eauto.
  - intros t r. unfold withdrawStake. cbv zeta. rewrite run_bind.
    change (deactivateStake (Some (or_default connection)))
      with (deactivateStake connection).
    destruct (run net (deactivateStake connection) h) as [t1 [e | r1]];
      [discriminate |].
    unfold_stages. exec net; intros Hrun; try discriminate.
    injection Hrun as <- <-. eauto.
Qed.

Lemma stages_return_state_of_predecessor_run :
  let net := Fixture.devnet [Fixture.validator] [] in
  let r :=
    {| k_wallet := Fixture.keypair 1;
       k_stakeAccount := Fixture.keypair 5;
       selectedValidatorPublicKey := Fixture.vote_key |} in
  (exists t1 keys t2,
      run net (createStakeAccount None) [] = (t1, inr keys)
      /\ fst (run net (delegateStake None) []) = (t1 ++ t2)%list
      /\ k_wallet r = wallet keys
      /\ k_stakeAccount r = stakeAccount keys)
  /\ (exists t1 t2,
         run net (delegateStake None) [] = (t1, inr r)
         /\ fst (run net (deactivateStake None) []) = (t1 ++ t2)%list)
  /\ (exists t1 t2,
         run net (deactivateStake None) [] = (t1, inr r)
         /\ fst (run net (withdrawStake None) []) = (t1 ++ t2)%list).
Proof.
  intros net r.
  destruct (stages_return_state_of_predecessor None net [])
    as (Hdelegate & Hdeactivate & Hwithdraw).
  split; [| split].
  - destruct (Hdelegate (fst (run net (delegateStake None) [])) r)
      as (t1 & keys & t2 & validators & selected & H1 & H2 & H3 & H4 & _).
    + vm_compute. reflexivity.
    + exists t1, keys, t2. auto.
  - apply (Hdeactivate (fst (run net (deactivateStake None) [])) r).
    vm_compute. reflexivity.
  - apply (Hwithdraw (fst (run net (withdrawStake None) [])) r).
    vm_compute. reflexivity.
Defined.

(** ** Rejections *)

Section Awaited.

Variable net : Network.

Lemma awaited_await (c : Call) : awaited (await c).
Proof. apply awaited_Do; intros; constructor. Qed.

Lemma awaited_createWallet : awaited createWallet.
Proof. exact (awaited_await Keypair_generate). Qed.

Lemma awaited_lift (A : Type) (r : Error + A) : awaited (lift r).
Proof. destruct r; constructor. Qed.

Lemma awaited_console_log (m : LogMsg) : awaited (console_log m).
Proof. repeat constructor. Qed.

Lemma awaited_detach (A : Type) (p : Prog A) : awaited (detach p).
Proof. unfold detach. repeat constructor. Qed.

Lemma awaited_bind (A B : Type) (p : Prog A) (f : A -> Prog B) :
  awaited p -> (forall a, awaited (f a)) -> awaited (bind p f).
Proof.
  intros Hp Hf. induction Hp as [a | e | c k Hk _ IH | c k _ IH | m k _ IH];
    simpl.
  - apply Hf.
  - constructor.
  - apply awaited_Do.
    + intros e. now rewrite Hk.
    + exact IH.
  - constructor. exact IH.
  - constructor. exact IH.
Qed.

Lemma stops_at_rejection_started (A : Type) (task : Prog A) :
  forall (B : Type) (res : Error + B) (t : list Event),
    stops_at_rejection t res ->
    stops_at_rejection (fst (start task) ++ t) res.
Proof.
  induction task as [A a | A e | A c k _ | A inner IHinner k IHk | A m k IH];
    intros B res t Ht; simpl; auto.
  - specialize (IHinner B res (fst (start k) ++ t)%list).
    specialize (IHk B res t Ht).
    destruct (start inner) as [t1 d1]. destruct (start k) as [t2 d2].
    simpl in *. rewrite <- app_assoc. auto.
  - specialize (IH B res t Ht). destruct (start k). exact IH.
Qed.

(** In a program that awaits every call and catches nothing, the first
    rejection is the end of the run and its outcome. *)
Lemma awaited_stops_at_rejection (A : Type) (p : Prog A) :
  awaited p ->
  forall h, stops_at_rejection (fst (run net p h)) (snd (run net p h)).
Proof.
  induction 1 as [a | e | c k Hk _ IH | c k _ IH | m k _ IH]; intros h;
    simpl.
  - exact I.
  - exact I.
  - destruct (net h c) as [e | v] eqn:Hr.
    + rewrite Hk. simpl. auto.
    + specialize (IH v (h ++ [ECall c (inr v)])%list).
      destruct (run net (k (inr v)) _). exact IH.
  - specialize (IH (h ++ fst (start c))%list).
    destruct (run net k _). simpl in *.
    now apply stops_at_rejection_started.
  - specialize (IH (h ++ [ELog m])%list).
    destruct (run net k _). exact IH.
Qed.

End Awaited.

Lemma stops_at_rejection_at (A : Type) (res : Error + A) (c : Call) (e : Error) :
  forall pre post,
    stops_at_rejection (pre ++ ECall c (inl e) :: post) res ->
    post = [] /\ res = inl e.
Proof.
  induction pre as [| x pre IH]; intros post; simpl.
  - auto.
  - destruct x as [c' [e' | v] | c' k' | m | c' r' | e' | c']; auto.
    intros [Hnil _]. destruct pre; discriminate.
Qed.

Create HintDb awaited.
#[local] Hint Resolve awaited_await awaited_createWallet awaited_lift
  awaited_console_log awaited_detach awaited_Ret : awaited.

Ltac awaited_tac :=
  repeat first [apply awaited_bind | intros ?]; auto with awaited.

Lemma awaited_createStakeAccount connection :
  awaited (createStakeAccount connection).
Proof.
  unfold createStakeAccount, requestAirdrop, getBalance,
    getStakeAccountStatus.
  awaited_tac.
Qed.

Lemma awaited_delegateStake connection : awaited (delegateStake connection).
Proof.
  unfold delegateStake. cbv zeta.
  apply awaited_bind; [apply awaited_createStakeAccount | intros ?].
  awaited_tac.
Qed.

Lemma awaited_deactivateStake connection :
  awaited (deactivateStake connection).
Proof.
  unfold deactivateStake. cbv zeta.
  apply awaited_bind; [apply awaited_delegateStake | intros ?].
  unfold getStakeAccountStatus. awaited_tac.
Qed.

Lemma awaited_withdrawStake connection : awaited (withdrawStake connection).
Proof.
  unfold withdrawStake. cbv zeta.
  apply awaited_bind; [apply awaited_deactivateStake | intros ?].
  unfold getBalance. awaited_tac.
Qed.

(** C6. In each of the four stages, entered on its own or as the
    beginning of a later stage, when the submission and confirmation of a
    transaction is rejected, the rejection is thrown to the caller and
    nothing happens after it: no call, no log, no further transaction. *)
Theorem rejected_confirmation_aborts_the_run :
  forall (connection : option Connection) (net : Network) (h : list Event),
    aborts_at_rejected_confirmation (run net (createStakeAccount connection) h)
    /\ aborts_at_rejected_confirmation (run net (delegateStake connection) h)
    /\ aborts_at_rejected_confirmation (run net (deactivateStake connection) h)
    /\ aborts_at_rejected_confirmation (run net (withdrawStake connection) h).
Proof.
  intros connection net h.
  assert (Hawaited : forall (A : Type) (p : Prog A),
             awaited p -> aborts_at_rejected_confirmation (run net p h)).
  { intros A p Hp pre c tx signers e post Ht.
    eapply stops_at_rejection_at with (pre := pre). rewrite <- Ht.
    now apply awaited_stops_at_rejection. }
  auto using awaited_createStakeAccount, awaited_delegateStake,
    awaited_deactivateStake, awaited_withdrawStake.
Qed.

Lemma rejected_confirmation_aborts_the_run_at_create :
  let net := Fixture.rejecting 6 (Fixture.devnet [Fixture.validator] []) in
  let out := run net (withdrawStake None) [] in
  confirmations (fst out) = [(Create, false)]
  /\ skipn 7 (fst out) = []
  /\ snd out = inl Fixture.expired.
Proof.
  intros net out.
  destruct (rejected_confirmation_aborts_the_run None net [])
    as (_ & _ & _ & Hwithdraw).
  split; [reflexivity |].
  apply (Hwithdraw (firstn 6 (fst out)) establishConnection
           (StakeProgram_createAccount
              {| authorized :=
                   new_Authorized (PublicKeyData 1) (PublicKeyData 1);
                 fromPubkey := PublicKeyData 1;
                 lamports := 502282880;
                 lockup := new_Lockup 0 0 (PublicKeyData 1);
                 stakePubkey := PublicKeyData 5 |})
           [Fixture.keypair 1; Fixture.keypair 5]
           Fixture.expired (skipn 7 (fst out))).
  reflexivity.
Defined.

(** ** The whole lifecycle *)

Lemma each_event_at (P : list Event -> Event -> Prop) (e : Event)
    (post : list Event) :
  forall pre before,
    each_event P before (pre ++ e :: post) -> P (rev pre ++ before)%list e.
Proof.
  induction pre as [| x pre IH]; intros before; simpl.
  - tauto.
  - intros [_ Hrest]. apply IH in Hrest.
    now rewrite <- app_assoc.
Qed.

Ltac check_trace :=
  repeat match goal with
         | |- _ /\ _ => split
         | |- True => exact I
         | |- exists _, _ => eexists
         end;
  try reflexivity.

(** C4. In every run of [withdrawStake] the transactions submitted are
    those of Create, Delegate, Deactivate and Withdraw, one each, in that
    order from the first on: a stage's transaction is submitted only after
    the transactions of all stages before it were submitted and confirmed.
    A run that returns went through all four, one after the other: it is
    the whole run of [createStakeAccount], then what [delegateStake] adds
    up to its return, then what [deactivateStake] adds up to its return,
    then the withdrawal, and each part holds the confirmed transaction of
    its stage. *)
Theorem withdrawStake_runs_the_lifecycle_in_order :
  forall (connection : option Connection) (net : Network) (h : list Event),
    let out := run net (withdrawStake connection) h in
    InOrder lifecycle (confirmations (fst out))
    /\ (forall r,
           snd out = inr r ->
           exists keys t1 t2 t3 t4,
             run net (createStakeAccount connection) h = (t1, inr keys)
             /\ run net (delegateStake connection) h
                = ((t1 ++ t2)%list, inr r)
             /\ run net (deactivateStake connection) h
                = (((t1 ++ t2) ++ t3)%list, inr r)
             /\ fst out = (((t1 ++ t2) ++ t3) ++ t4)%list
             /\ confirmations t1 = [(Create, true)]
             /\ confirmations t2 = [(Delegate, true)]
             /\ confirmations t3 = [(Deactivate, true)]
             /\ confirmations t4 = [(Withdraw, true)]).
Proof.
  intros connection net h out. subst out. unfold_stages. split.
  - exec net; repeat constructor.
  - intros r. exec net; intros Hret; try discriminate.
    injection Hret as <-. do 5 eexists.
    split; [reflexivity |]. split; [reflexivity |].
    split; [reflexivity |]. split; [reflexivity |].
    repeat split.
Qed.

Lemma withdrawStake_runs_the_lifecycle_in_order_run :
  let net := Fixture.devnet [Fixture.validator] [] in
  let r :=
    {| k_wallet := Fixture.keypair 1;
       k_stakeAccount := Fixture.keypair 5;
       selectedValidatorPublicKey := Fixture.vote_key |} in
  snd (run net (withdrawStake None) []) = inr r
  /\ exists keys t1 t2 t3 t4,
       run net (createStakeAccount None) [] = (t1, inr keys)
       /\ run net (delegateStake None) [] = ((t1 ++ t2)%list, inr r)
       /\ run net (deactivateStake None) []
          = (((t1 ++ t2) ++ t3)%list, inr r)
       /\ fst (run net (withdrawStake None) [])
          = (((t1 ++ t2) ++ t3) ++ t4)%list
       /\ confirmations t1 = [(Create, true)]
       /\ confirmations t2 = [(Delegate, true)]
       /\ confirmations t3 = [(Deactivate, true)]
       /\ confirmations t4 = [(Withdraw, true)].
Proof.
  intros net r.
  assert (Hret : snd (run net (withdrawStake None) []) = inr r)
    by (vm_compute; reflexivity).
  split; [exact Hret |].
  exact (proj2 (withdrawStake_runs_the_lifecycle_in_order None net [])
           r Hret).
Defined.

Lemma withdrawStake_withdraws_balance_just_read connection net h :
  each_event withdraws_balance_just_read []
    (fst (run net (withdrawStake connection) h)).
Proof.
  unfold_stages. exec net; check_trace.
Qed.

(** C3. Wherever a run of [withdrawStake] submits a withdrawal, the event
    just before it is the read of the balance of the stake account, the
    lamports of the withdrawal are the balance that this read gave, and
    before the read the transactions of Create, Delegate and Deactivate
    were confirmed.  A run that returns has submitted such a withdrawal,
    from the stake account it returns to its wallet. *)
Theorem withdrawStake_withdraws_the_balance_read :
  forall (connection : option Connection) (net : Network) (h : list Event),
    let out := run net (withdrawStake connection) h in
    (forall pre c p signers r post,
        fst out
        = (pre ++ ECall (sendAndConfirmTransaction c (StakeProgram_withdraw p)
                           signers) r :: post)%list ->
        exists earlier,
          pre = (earlier ++ [ECall (conn_getBalance c (w_stakePubkey p))
                               (inr (w_lamports p))])%list
          /\ confirmations earlier
             = [(Create, true); (Delegate, true); (Deactivate, true)])
    /\ (forall res,
           snd out = inr res ->
           exists stakeBalance,
             In (StakeProgram_withdraw
                   {| w_stakePubkey := publicKey (k_stakeAccount res);
                      w_authorizedPubkey := publicKey (k_wallet res);
                      w_toPubkey := publicKey (k_wallet res);
                      w_lamports := stakeBalance |},
                 [k_wallet res])
                (submitted (fst out))).
Proof.
  intros connection net h out. subst out. split.
  - intros pre c p signers r post Ht.
    pose proof (withdrawStake_withdraws_balance_just_read connection net h)
      as Hall.
    rewrite Ht in Hall. apply each_event_at in Hall.
    destruct Hall as (earlier & Hpre & Hconfirmed).
    rewrite app_nil_r in Hpre. exists (rev earlier). split.
    + rewrite <- (rev_involutive pre), Hpre. reflexivity.
    + exact Hconfirmed.
  - intros res. unfold_stages.
    exec net; intros Hret; try discriminate.
    injection Hret as <-. cbn. eauto 8.
Qed.

Lemma withdrawStake_withdraws_the_balance_read_run :
  let net := Fixture.devnet [Fixture.validator] [] in
  let t := fst (run net (withdrawStake None) []) in
  exists earlier,
    firstn 21 t
    = (earlier ++ [ECall (conn_getBalance establishConnection (PublicKeyData 5))
                     (inr 502282880)])%list
    /\ confirmations earlier
       = [(Create, true); (Delegate, true); (Deactivate, true)].
Proof.
  intros net t.
  apply (proj1 (withdrawStake_withdraws_the_balance_read None net [])
           (firstn 21 t) establishConnection
           {| w_stakePubkey := PublicKeyData 5;
              w_authorizedPubkey := PublicKeyData 1;
              w_toPubkey := PublicKeyData 1;
              w_lamports := 502282880 |}
           [Fixture.keypair 1] (inr "signature") (skipn 22 t)).
  vm_compute. reflexivity.
Defined.

(** * Further properties *)

(** ** The airdrop in [createStakeAccount] *)

Ltac check_next :=
  repeat match goal with
         | |- _ /\ _ => split
         | |- True => exact I
         | |- false = true -> _ => discriminate
         | |- _ -> _ => intros ?
         | |- forall _, _ => intros ?
         | |- exists _, _ => eexists
         end;
  try reflexivity.

Lemma each_next_at (P : Event -> list Event -> Prop) (e : Event)
    (post : list Event) :
  forall pre, each_next P (pre ++ e :: post) -> P e post.
Proof.
  induction pre as [| x pre IH]; simpl; tauto.
Qed.

Lemma createStakeAccount_confirms_airdrop_requested connection net h :
  each_event confirms_airdrop_requested []
    (fst (run net (createStakeAccount connection) h)).
Proof.
  unfold_stages. exec net; check_trace.
Qed.

(** X2. Where [createStakeAccount] confirms a transaction with
    [confirmTransaction], the events before it are exactly: the generation
    of the wallet, the request of an airdrop of [LAMPORTS_PER_SOL]
    lamports to the wallet's public key, and the read of the latest
    blockhash; the confirmation is asked for the signature of that airdrop
    with that blockhash and its last valid block height. *)
Theorem createStakeAccount_confirms_its_airdrop :
  forall (connection : option Connection) (net : Network) (h : list Event)
         pre c strategy r post,
    fst (run net (createStakeAccount connection) h)
    = (pre ++ ECall (conn_confirmTransaction c strategy) r :: post)%list ->
    exists wallet airdropSignature bh,
      pre
      = [ECall Keypair_generate (inr wallet);
         ECall (conn_requestAirdrop c (publicKey wallet) LAMPORTS_PER_SOL)
           (inr airdropSignature);
         ECall (conn_getLatestBlockhash c) (inr bh)]
      /\ strategy
         = {| s_blockhash := blockhash bh;
              s_lastValidBlockHeight := lastValidBlockHeight bh;
              s_signature := airdropSignature |}.
Proof.
  intros connection net h pre c strategy r post Ht.
  pose proof (createStakeAccount_confirms_airdrop_requested connection net h)
    as Hall.
  rewrite Ht in Hall. apply each_event_at in Hall.
  destruct Hall as (wallet & sig & bh & Hpre & Hstrategy).
  exists wallet, sig, bh. split; [| exact Hstrategy].
  rewrite app_nil_r in Hpre.
  rewrite <- (rev_involutive pre), Hpre. reflexivity.
Qed.

Lemma createStakeAccount_confirms_its_airdrop_run :
  let net := Fixture.devnet [] [] in
  exists wallet airdropSignature bh,
    firstn 3 (fst (run net (createStakeAccount None) []))
    = [ECall Keypair_generate (inr wallet);
       ECall (conn_requestAirdrop establishConnection (publicKey wallet)
                LAMPORTS_PER_SOL) (inr airdropSignature);
       ECall (conn_getLatestBlockhash establishConnection) (inr bh)]
    /\ {| s_blockhash := "blockhash";
          s_lastValidBlockHeight := 100;
          s_signature := "airdrop" |}
       = {| s_blockhash := blockhash bh;
            s_lastValidBlockHeight := lastValidBlockHeight bh;
            s_signature := airdropSignature |}.
Proof.
  intros net.
  apply (createStakeAccount_confirms_its_airdrop None net []
           (firstn 3 (fst (run net (createStakeAccount None) [])))
           (c := establishConnection)
           (strategy := {| s_blockhash := "blockhash";
                           s_lastValidBlockHeight := 100;
                           s_signature := "airdrop" |})
           (inr {| err := None |})
           (skipn 4 (fst (run net (createStakeAccount None) [])))).
  reflexivity.
Defined.

Lemma createStakeAccount_goes_on_after_confirmation connection net h :
  each_next goes_on_after_confirmation
    (fst (run net (createStakeAccount connection) h)).
Proof.
  unfold_stages. exec net; check_next.
Qed.

(** X3. [createStakeAccount] does not look at the value of
    [confirmTransaction]: when the confirmation is fulfilled, with an
    [err] or without, the next thing that happens is the generation of
    the stake account's key pair. *)
Theorem createStakeAccount_ignores_confirmation_result :
  forall (connection : option Connection) (net : Network) (h : list Event)
         pre c strategy (result : SignatureResult) post,
    fst (run net (createStakeAccount connection) h)
    = (pre ++ ECall (conn_confirmTransaction c strategy) (inr result)
           :: post)%list ->
    exists kp post', post = ECall Keypair_generate kp :: post'.
Proof.
  intros connection net h pre c strategy result post Ht.
  pose proof (createStakeAccount_goes_on_after_confirmation connection net h)
    as Hall.
  rewrite Ht in Hall. apply each_next_at in Hall.
  exact (Hall eq_refl).
Qed.

Lemma createStakeAccount_ignores_confirmation_result_run :
  let t := fst (run Scenario.failed_airdrop (createStakeAccount None) []) in
  exists kp post', skipn 4 t = ECall Keypair_generate kp :: post'.
Proof.
  intros t.
  apply (@createStakeAccount_ignores_confirmation_result None
           Scenario.failed_airdrop [] (firstn 3 t)
           establishConnection
           {| s_blockhash := "blockhash";
              s_lastValidBlockHeight := 100;
              s_signature := "airdrop" |}
           {| err := Some "InsufficientFundsForFee" |}
           (skipn 4 t)).
  reflexivity.
Defined.

(** ** The identities of the lifecycle *)

(** X4. In every run of [withdrawStake], a transaction that is submitted
    comes with exactly two key pairs generated in the whole run, the
    wallet and then the stake account, and is built from them: the wallet
    pays and is the authority in all four transactions and receives the
    withdrawal, the stake account is the account of all four, and the
    signers are the wallet, with the stake account for the creation
    only. *)
Theorem lifecycle_uses_one_wallet_and_one_stake_account :
  forall (connection : option Connection) (net : Network) (h : list Event)
         (tx : Transaction) (signers : list Keypair),
    let t := fst (run net (withdrawStake connection) h) in
    In (tx, signers) (submitted t) ->
    exists wallet stakeAccount,
      generated t = [wallet; stakeAccount]
      /\ built_from wallet stakeAccount tx signers.
Proof.
  intros connection net h tx signers t. subst t. unfold_stages.
  exec net; intros Hin; try contradiction.
  all: repeat (destruct Hin as [Hin | Hin]; try contradiction).
  all: injection Hin as <- <-; do 2 eexists; split; [reflexivity |].
  all: cbn; auto.
Qed.

Lemma lifecycle_uses_one_wallet_and_one_stake_account_run :
  let net := Fixture.devnet [Fixture.validator] [] in
  let t := fst (run net (withdrawStake None) []) in
  exists wallet stakeAccount,
    generated t = [wallet; stakeAccount]
    /\ built_from wallet stakeAccount
         (StakeProgram_withdraw
            {| w_stakePubkey := PublicKeyData 5;
               w_authorizedPubkey := PublicKeyData 1;
               w_toPubkey := PublicKeyData 1;
               w_lamports := 502282880 |})
         [Fixture.keypair 1].
Proof.
  intros net t.
  apply (lifecycle_uses_one_wallet_and_one_stake_account None net []).
  vm_compute. do 3 right. left. reflexivity.
Defined.

(** ** Selecting the validator *)

(** X5. When the creation has returned and the vote key of the first
    current validator is not the text of a public key, [delegateStake]
    throws the exception of [new PublicKey] right after the read of the
    validator set: no delegation is built or submitted. *)
Theorem delegateStake_with_unreadable_vote_key :
  forall (connection : option Connection) (net : Network) (h t : list Event)
         (keys : Keys) (validators : VoteAccountStatus)
         (selectedValidator : VoteAccountInfo) (others : list VoteAccountInfo)
         (e : Error),
    run net (createStakeAccount connection) h = (t, inr keys) ->
    net (h ++ t)%list (conn_getVoteAccounts (or_default connection))
    = inr validators ->
    current validators = selectedValidator :: others ->
    newPublicKey (js_string (votePubkey selectedValidator)) = inl e ->
    run net (delegateStake connection) h
    = ((t ++ [ECall (conn_getVoteAccounts (or_default connection))
                (inr validators)])%list,
       inl e).
Proof.
  intros connection net h t keys validators v others e
    Hcreate Hfetch Hfirst Hkey.
  unfold delegateStake. cbv zeta. rewrite run_bind.
  change (createStakeAccount (Some (or_default connection)))
    with (createStakeAccount connection).
  rewrite Hcreate. unfold await. cbn.
  rewrite Hfetch. cbn. rewrite Hfirst. cbn. rewrite Hkey. reflexivity.
Qed.

Lemma delegateStake_with_unreadable_vote_key_run :
  let net := Fixture.devnet [Scenario.misnamed_validator] [] in
  snd (run net (delegateStake None) [])
  = inl (JsError "Non-base58 character")
  /\ submitted (fst (run net (delegateStake None) []))
     = submitted (fst (run net (createStakeAccount None) [])).
Proof.
  intros net.
  rewrite (@delegateStake_with_unreadable_vote_key None net []
             (fst (run net (createStakeAccount None) []))
             {| wallet := Fixture.keypair 1; stakeAccount := Fixture.keypair 5 |}
             {| current := [Scenario.misnamed_validator]; delinquent := [] |}
             Scenario.misnamed_validator []
             (JsError "Non-base58 character")
             eq_refl eq_refl eq_refl eq_refl).
  split; reflexivity.
Defined.

Lemma delegateStake_returns_after_delegation connection net h :
  each_next
    (returns_after_delegation (snd (run net (delegateStake connection) h)))
    (fst (run net (delegateStake connection) h)).
Proof.
  unfold_stages. exec net; check_next.
Qed.

(** X6. Once its delegation is confirmed, [delegateStake] returns: it
    writes the line that reports the delegation, calls the function that
    reads the status of the stake account without awaiting it, and returns
    the validator delegated to.  Of that function only the call of the
    read is part of its run; what is left behind will log the status when
    the read answers, and throw when the read is rejected. *)
Theorem delegateStake_does_not_await_the_status :
  forall (connection : option Connection) (net : Network) (h : list Event)
         pre c p signers (delegateTxId : string) post,
    fst (run net (delegateStake connection) h)
    = (pre ++ ECall (sendAndConfirmTransaction c (StakeProgram_delegate p)
                       signers) (inr delegateTxId) :: post)%list ->
    exists task,
      post = [ELog (log_delegated (d_votePubkey p) delegateTxId);
              ESpawn (conn_getStakeActivation c (d_stakePubkey p)) task]
      /\ (forall status,
             task (inr status) = Log (log_status (state status)) (Ret tt))
      /\ (forall e, task (inl e) = Throw e)
      /\ exists keys,
          snd (run net (delegateStake connection) h) = inr keys
          /\ selectedValidatorPublicKey keys = d_votePubkey p.
Proof.
  intros connection net h pre c p signers txid post Ht.
  pose proof (delegateStake_returns_after_delegation connection net h)
    as Hall.
  rewrite Ht in Hall. apply each_next_at in Hall. exact Hall.
Qed.

Lemma delegateStake_does_not_await_the_status_run :
  let net := Fixture.devnet [Fixture.validator] [] in
  let out := run net (delegateStake None) [] in
  exists task,
    skipn 14 (fst out)
    = [ELog (log_delegated Fixture.vote_key "signature");
       ESpawn (conn_getStakeActivation establishConnection (PublicKeyData 5))
         task]
    /\ (forall status,
           task (inr status) = Log (log_status (state status)) (Ret tt))
    /\ (forall e, task (inl e) = Throw e)
    /\ exists keys,
        snd out = inr keys
        /\ selectedValidatorPublicKey keys = Fixture.vote_key.
Proof.
  intros net out.
  apply (@delegateStake_does_not_await_the_status None net []
           (firstn 13 (fst out))
           establishConnection
           {| d_stakePubkey := PublicKeyData 5;
              d_authorizedPubkey := PublicKeyData 1;
              d_votePubkey := Fixture.vote_key |}
           [Fixture.keypair 1]
           "signature"
           (skipn 14 (fst out))).
  vm_compute. reflexivity.
Defined.

(** ** More on the delegator scan *)

(** X7. A scan whose account query returns accounts logs their number and
    then the first of them as the sample, and returns; it logs nothing
    else. *)
Theorem scan_with_matches_reports_count_and_first :
  forall (connection : option Connection)
         (validatorPublicKey : PublicKeyInitData) (VOTE_PUB_KEY : PublicKey)
         (net : Network) (h : list Event)
         (first : ProgramAccount) (others : list ProgramAccount),
    let query :=
      conn_getProgramAccounts (or_default connection) STAKE_PROGRAM_ID
        [dataSize 200; memcmp 124 VOTE_PUB_KEY] in
    let out := run net (getDelegatorsByValidator connection validatorPublicKey) h in
    newPublicKey validatorPublicKey = inr VOTE_PUB_KEY ->
    net h query = inr (first :: others) ->
    logged (fst out)
    = [log_delegators VOTE_PUB_KEY (S (List.length others)); log_sample first]
    /\ calls (fst out) = [query]
    /\ snd out = inr tt.
Proof.
  intros connection vk pk net h first others query out Hkey Hfound.
  subst out. unfold getDelegatorsByValidator. cbn.
  rewrite STAKE_PROGRAM_ID_decoded. cbn.
  rewrite Hkey. cbn. fold query. rewrite Hfound. cbn. auto.
Qed.

Lemma scan_with_matches_reports_count_and_first_run :
  let out :=
    run (Fixture.devnet [] Fixture.accounts)
      (getDelegatorsByValidator None (js_PublicKey Fixture.vote_key)) [] in
  logged (fst out)
  = [log_delegators Fixture.vote_key 1;
     log_sample (Fixture.stake_record 200 Fixture.vote_key)]
  /\ calls (fst out)
     = [conn_getProgramAccounts establishConnection STAKE_PROGRAM_ID
          [dataSize 200; memcmp 124 Fixture.vote_key]]
  /\ snd out = inr tt.
Proof.
  apply (@scan_with_matches_reports_count_and_first None
           (js_PublicKey Fixture.vote_key) Fixture.vote_key
           (Fixture.devnet [] Fixture.accounts) []
           (Fixture.stake_record 200 Fixture.vote_key) []).
  - reflexivity.
  - vm_compute. reflexivity.
Defined.

(** X8. When the validator key cannot be constructed, whatever was given
    for it, the scan throws the exception of the constructor and has done
    nothing: no call, no line. *)
Theorem scan_with_unreadable_key_makes_no_call :
  forall (connection : option Connection)
         (validatorPublicKey : PublicKeyInitData) (e : Error)
         (net : Network) (h : list Event),
    newPublicKey validatorPublicKey = inl e ->
    run net (getDelegatorsByValidator connection validatorPublicKey) h
    = ([], inl e).
Proof.
  intros connection vk e net h Hkey.
  unfold getDelegatorsByValidator. cbn.
  rewrite STAKE_PROGRAM_ID_decoded. cbn. rewrite Hkey. reflexivity.
Qed.

Lemma scan_with_unreadable_key_makes_no_call_run :
  run (Fixture.devnet [] Fixture.accounts)
    (getDelegatorsByValidator None (js_string "Vote1")) []
  = ([], inl (JsError "Invalid public key input")).
Proof.
  apply scan_with_unreadable_key_makes_no_call.
  vm_compute. reflexivity.
Defined.

(** X9. The scan only reads: whatever key it is given and whatever the
    network answers, it makes at most one call, the account query on the
    stake program with the two filters for the key constructed; it
    submits no transaction and generates no key pair. *)
Theorem scan_only_reads :
  forall (connection : option Connection)
         (validatorPublicKey : PublicKeyInitData)
         (net : Network) (h : list Event),
    let t :=
      fst (run net (getDelegatorsByValidator connection validatorPublicKey) h)
    in
    (calls t = []
     \/ exists VOTE_PUB_KEY,
         newPublicKey validatorPublicKey = inr VOTE_PUB_KEY
         /\ calls t
            = [conn_getProgramAccounts (or_default connection)
                 STAKE_PROGRAM_ID [dataSize 200; memcmp 124 VOTE_PUB_KEY]])
    /\ submitted t = []
    /\ generated t = [].
Proof.
  intros connection vk net h t. subst t.
  unfold getDelegatorsByValidator. cbn.
  rewrite STAKE_PROGRAM_ID_decoded. cbn.
  destruct (newPublicKey vk) as [e | pk]; cbn.
  - auto.
  - destruct (net h _) as [e | [| first others]]; cbn; eauto 6.
Qed.

(** ** The combined flow of index.js *)

Lemma newPublicKey_of_key (pk : PublicKey) :
  newPublicKey (js_PublicKey pk) = inr pk.
Proof. reflexivity. Qed.

Ltac unfold_flows :=
  unfold index.runMain, index.main, get_validators.runMain,
    get_validators.main, runMain, getValidators, getDelegatorsByValidator;
  unfold_stages.

Ltac exec_accounts :=
  match goal with
  | |- context [match ?accounts with [] => _ | _ :: _ => _ end] =>
      is_var accounts; destruct accounts
  end.

Ltac exec_flow net :=
  rewrite ?STAKE_PROGRAM_ID_decoded; cbn;
  repeat (first [rewrite newPublicKey_of_key | exec_step net | exec_accounts];
          cbn).

Ltac check_scan :=
  repeat match goal with
         | |- _ /\ _ => split
         | |- True => exact I
         | |- exists _, _ => eexists
         | |- _ \/ _ => right; left; reflexivity
         end;
  try reflexivity.

Lemma index_scans_validator_delegated_to net h :
  each_event scans_validator_delegated_to [] (fst (run net index.runMain h)).
Proof.
  unfold_flows. exec_flow net; check_scan.
Qed.

(** X10. In the flow of index.js an account query is made only when the
    transactions of all four stages were confirmed before it; it is made
    on the stake program, and its [memcmp] filter carries the vote key of
    the delegation that this run submitted, which is the validator read
    by [delegateStake], not the set listed first by [getValidators]. *)
Theorem index_scans_the_validator_delegated_to :
  forall (net : Network) (h : list Event) pre c programId filters r post,
    fst (run net index.runMain h)
    = (pre ++ ECall (conn_getProgramAccounts c programId filters) r
           :: post)%list ->
    programId = STAKE_PROGRAM_ID
    /\ confirmations pre
       = [(Create, true); (Delegate, true); (Deactivate, true);
          (Withdraw, true)]
    /\ exists p signers,
        In (StakeProgram_delegate p, signers) (submitted pre)
        /\ filters = [dataSize 200; memcmp 124 (d_votePubkey p)].
Proof.
  intros net h pre c programId filters r post Ht.
  pose proof (index_scans_validator_delegated_to net h) as Hall.
  rewrite Ht in Hall. apply each_event_at in Hall.
  unfold scans_validator_delegated_to in Hall.
  rewrite app_nil_r, rev_involutive in Hall. exact Hall.
Qed.

Lemma index_scans_the_validator_delegated_to_run :
  let t := fst (run Scenario.changing_validators index.runMain []) in
  STAKE_PROGRAM_ID = STAKE_PROGRAM_ID
  /\ confirmations (firstn 28 t)
     = [(Create, true); (Delegate, true); (Deactivate, true);
        (Withdraw, true)]
  /\ exists p signers,
      In (StakeProgram_delegate p, signers) (submitted (firstn 28 t))
      /\ [dataSize 200; memcmp 124 Fixture.vote_key]
         = [dataSize 200; memcmp 124 (d_votePubkey p)].
Proof.
  intros t.
  apply (@index_scans_the_validator_delegated_to
           Scenario.changing_validators [] (firstn 28 t)
           establishConnection STAKE_PROGRAM_ID
           [dataSize 200; memcmp 124 Fixture.vote_key]
           (inr [Fixture.stake_record 200 Fixture.vote_key])
           (skipn 29 t)).
  vm_compute. reflexivity.
Defined.

(** X11. Every call of a run of [withdrawStake] is made on the connection
    it was given, or on the default one when it was given none; every
    call of the flow of index.js is made on the one connection to devnet
    at commitment "processed". *)
Theorem every_call_is_made_on_the_connection_given :
  forall (connection : option Connection) (net : Network) (h : list Event),
    (forall c,
        In c (connections (fst (run net (withdrawStake connection) h))) ->
        c = or_default connection)
    /\ (forall c,
           In c (connections (fst (run net index.runMain h))) ->
           c = {| cluster := "devnet"; commitment := "processed" |}).
Proof.
  intros connection net h. split; intros c.
  - unfold_stages. exec net; intros Hin.
    all: repeat (destruct Hin as [Hin | Hin]; [now symmetry |]).
    all: contradiction.
  - unfold_flows. exec_flow net; intros Hin.
    all: repeat (destruct Hin as [Hin | Hin]; [now symmetry |]).
    all: contradiction.
Qed.

Lemma every_call_is_made_on_the_connection_given_run :
  let net := Fixture.devnet [Fixture.validator] [] in
  let given := {| cluster := "testnet"; commitment := "finalized" |} in
  given = or_default (Some given)
  /\ establishConnection
     = {| cluster := "devnet"; commitment := "processed" |}.
Proof.
  intros net given.
  destruct (every_call_is_made_on_the_connection_given (Some given) net [])
    as (Hlifecycle & Hindex).
  split.
  - apply Hlifecycle. vm_compute. left. reflexivity.
  - apply Hindex. vm_compute. left. reflexivity.
Defined.

(** ** How the lifecycle fails *)

(** X12. [withdrawStake] throws in three ways only.  Either the last
    thing it did is a call that was rejected, and it throws that
    rejection; or the last thing it did is the read of the validator set
    in [delegateStake], fulfilled, and it throws because that set has no
    current validator or because the vote key of the first one is not the
    text of a public key. *)
Theorem withdrawStake_throws_a_rejection_or_at_the_validator :
  forall (connection : option Connection) (net : Network) (h : list Event)
         (e : Error),
    let out := run net (withdrawStake connection) h in
    snd out = inl e ->
    (exists c, final (fst out) = Some (ECall c (inl e)))
    \/ (exists validators,
           final (fst out)
           = Some (ECall (conn_getVoteAccounts (or_default connection))
                     (inr validators))
           /\ (first_votePubkey (current validators) = inl e
               \/ exists votePubkey,
                   first_votePubkey (current validators) = inr votePubkey
                   /\ newPublicKey (js_string votePubkey) = inl e)).
Proof.
  intros connection net h e out. subst out. unfold_stages.
  exec net; intros Hthrown; try discriminate.
  all: injection Hthrown as <-.
  all: first
         [ match goal with
           | |- (exists c, Some (ECall ?c0 _) = _) \/ _ =>
               left; exists c0; reflexivity
           end
         | right; eexists; split; [reflexivity |];
           match goal with
           | Hcurrent : current _ = _ |- _ => rewrite Hcurrent
           end;
           cbn; first [left; reflexivity | right; eauto] ].
Qed.

Lemma withdrawStake_throws_a_rejection_or_at_the_validator_run :
  let net := Fixture.rejecting 16 (Fixture.devnet [Fixture.validator] []) in
  let out := run net (withdrawStake None) [] in
  (exists c, final (fst out) = Some (ECall c (inl Fixture.expired)))
  \/ (exists validators,
         final (fst out)
         = Some (ECall (conn_getVoteAccounts (or_default None))
                   (inr validators))
         /\ (first_votePubkey (current validators) = inl Fixture.expired
             \/ exists votePubkey,
                 first_votePubkey (current validators) = inr votePubkey
                 /\ newPublicKey (js_string votePubkey)
                    = inl Fixture.expired)).
Proof.
  intros net out.
  apply (withdrawStake_throws_a_rejection_or_at_the_validator None net []).
  vm_compute. reflexivity.
Defined.

(** ** Listing the validators *)

(** X13. The flow that lists the validators makes one read of the vote
    accounts.  When the read is fulfilled it logs the number of current
    and delinquent validators together, then the number of current ones;
    when it is rejected it logs the rejection under its label.  It
    returns in both cases. *)
Theorem get_validators_logs_counts_or_error :
  forall (net : Network) (h : list Event),
    let out := run net get_validators.runMain h in
    calls (fst out) = [conn_getVoteAccounts establishConnection]
    /\ snd out = inr tt
    /\ match net h (conn_getVoteAccounts establishConnection) with
       | inr validators =>
           logged (fst out)
           = [log_validators (List.length (current validators)
                              + List.length (delinquent validators));
              log_current_validators (List.length (current validators))]
       | inl e =>
           logged (fst out) = [log_error (Some "Error Encountered: ") e]
       end.
Proof.
  intros net h out. subst out. unfold_flows. cbn.
  destruct (net h _) as [e | validators]; cbn; auto.
Qed.

(** ** Rejections, of any call *)

Lemma awaited_getValidators connection : awaited (getValidators connection).
Proof.
  unfold getValidators. cbv zeta.
  apply awaited_bind; [apply awaited_await | intros validators].
  apply awaited_bind; [apply awaited_console_log | intros _].
  apply awaited_console_log.
Qed.

Lemma awaited_getDelegatorsByValidator connection validatorPublicKey :
  awaited (getDelegatorsByValidator connection validatorPublicKey).
Proof.
  unfold getDelegatorsByValidator. cbv zeta.
  apply awaited_bind; [apply awaited_lift | intros programId].
  apply awaited_bind; [apply awaited_lift | intros key].
  apply awaited_bind; [apply awaited_await | intros accounts].
  apply awaited_bind; [apply awaited_console_log | intros _].
  destruct accounts; [apply awaited_Ret | apply awaited_console_log].
Qed.

(** X14. None of the functions of core.js goes on after a rejected call
    or hides it: in the four stages, in [getValidators] and in the scan,
    a rejection of any awaited call, the reads after a confirmed
    transaction among them, is the last event and is what the function
    throws. *)
Theorem every_rejected_call_aborts :
  forall (connection : option Connection)
         (validatorPublicKey : PublicKeyInitData)
         (net : Network) (h : list Event),
    aborts_at_rejected_call (run net (createStakeAccount connection) h)
    /\ aborts_at_rejected_call (run net (delegateStake connection) h)
    /\ aborts_at_rejected_call (run net (deactivateStake connection) h)
    /\ aborts_at_rejected_call (run net (withdrawStake connection) h)
    /\ aborts_at_rejected_call (run net (getValidators connection) h)
    /\ aborts_at_rejected_call
         (run net (getDelegatorsByValidator connection validatorPublicKey) h).
Proof.
  intros connection vk net h.
  assert (Hawaited : forall (A : Type) (p : Prog A),
             awaited p -> aborts_at_rejected_call (run net p h)).
  { intros A p Hp pre c e post Ht.
    eapply stops_at_rejection_at with (pre := pre). rewrite <- Ht.
    now apply awaited_stops_at_rejection. }
  auto 10 using awaited_createStakeAccount, awaited_delegateStake,
    awaited_deactivateStake, awaited_withdrawStake, awaited_getValidators,
    awaited_getDelegatorsByValidator.
Qed.

Lemma every_rejected_call_aborts_after_creation :
  let net := Fixture.rejecting 8 (Fixture.devnet [Fixture.validator] []) in
  let out := run net (createStakeAccount None) [] in
  confirmations (fst out) = [(Create, true)]
  /\ skipn 9 (fst out) = []
  /\ snd out = inl Fixture.expired.
Proof.
  intros net out.
  destruct (every_rejected_call_aborts None js_undefined net [])
    as (Hcreate & _).
  split; [reflexivity |].
  apply (Hcreate (firstn 8 (fst out))
           (conn_getBalance establishConnection (PublicKeyData 5))
           Fixture.expired (skipn 9 (fst out))).
  reflexivity.
Defined.

(** ** The process and the catch-all boundary of the entry flows *)

Section Process.

Variable net : Network.
Variable sched : Schedule.

Lemma settle_idx_nil (positions : list nat) (h : list Event) :
  settle_idx net positions [] h = ([], [], None).
Proof.
  induction positions as [| i later IH]; simpl; [reflexivity |].
  destruct i; exact IH.
Qed.

Lemma settle_idx_alone (positions : list nat) (c : Call)
    (k : Error + resp c -> Prog unit) (h : list Event) :
  settle_idx net positions [waiting c k] h =
  match after_first_zero positions with
  | None => ([], [waiting c k], None)
  | Some later =>
      let r := net h c in
      let '(t, d) := start (k r) in
      match doomed d with
      | Some e => (ESettle c r :: t, d, Some e)
      | None =>
          let '(t', left', death) :=
            settle_idx net later d (h ++ ESettle c r :: t) in
          ((ESettle c r :: t ++ t')%list, left', death)
      end
  end.
Proof.
  induction positions as [| i later IH]; simpl; [reflexivity |].
  destruct i as [| i]; simpl.
  - reflexivity.
  - destruct i; exact IH.
Qed.

(** What [try]/[catch] does in the process: the handler runs when the
    program throws, and not when the process dies. *)
Lemma live_try_catch (A : Type) (p : Prog A) (handler : Error -> Prog A) :
  forall dropped h,
    live net sched (try_catch p handler) dropped h =
    match live net sched p dropped h with
    | (t, Threw e, dropped') =>
        let '(t2, x, dropped'') :=
          live net sched (handler e) dropped' (h ++ t) in
        ((t ++ t2)%list, x, dropped'')
    | other => other
    end.
Proof.
  induction p as [A a | A e | A c k IH | A task _ k IH | A m k IH];
    intros dropped h; simpl.
  - reflexivity.
  - rewrite app_nil_r.
    destruct (live net sched (handler e) dropped h) as [[t x] d].
    reflexivity.
  - destruct (settle net sched dropped h) as [[t0 dropped'] [e |]];
      [reflexivity |].
    rewrite IH.
    destruct (live net sched (k _) dropped' _) as [[t x] d].
    destruct x as [a | e | e]; try reflexivity.
    replace (h ++ t0 ++ ECall c (net (h ++ t0)%list c) :: t)%list
      with ((h ++ t0 ++ [ECall c (net (h ++ t0)%list c)]) ++ t)%list
      by (rewrite <- !app_assoc; reflexivity).
    destruct (live net sched (handler e) d _) as [[t2 x2] d2].
    rewrite <- app_assoc. reflexivity.
  - destruct (start task) as [t0 d0].
    rewrite IH.
    destruct (live net sched k (dropped ++ d0) (h ++ t0)) as [[t x] d].
    destruct x as [a | e | e]; try reflexivity.
    rewrite <- app_assoc.
    destruct (live net sched (handler e) d _) as [[t2 x2] d2].
    rewrite <- app_assoc. reflexivity.
  - rewrite IH.
    destruct (live net sched k dropped _) as [[t x] d].
    destruct x as [a | e | e]; try reflexivity.
    rewrite <- app_assoc. simpl.
    destruct (live net sched (handler e) d _) as [[t2 x2] d2].
    reflexivity.
Qed.

(** A program that calls no function without awaiting it leaves nothing
    behind, and the process is its run. *)
Lemma live_spawn_free (A : Type) (p : Prog A) :
  spawn_free p ->
  forall h,
    live net sched p [] h =
    (fst (run net p h),
     match snd (run net p h) with
     | inl e => Threw e
     | inr a => Returned a
     end,
     []).
Proof.
  induction 1 as [a | e | c k _ IH | m k _ IH]; intros h; simpl.
  - reflexivity.
  - reflexivity.
  - rewrite app_nil_r. simpl. rewrite IH.
    destruct (run net (k (net h c)) _) as [t res]. reflexivity.
  - rewrite IH. destruct (run net k _) as [t res]. reflexivity.
Qed.

Lemma spawn_free_bind (A B : Type) (p : Prog A) (f : A -> Prog B) :
  spawn_free p -> (forall a, spawn_free (f a)) -> spawn_free (bind p f).
Proof.
  intros Hp Hf. induction Hp as [a | e | c k _ IH | m k _ IH]; simpl.
  - apply Hf.
  - constructor.
  - constructor. exact IH.
  - constructor. exact IH.
Qed.

Lemma spawn_free_try_catch (A : Type) (p : Prog A)
    (handler : Error -> Prog A) :
  spawn_free p -> (forall e, spawn_free (handler e)) ->
  spawn_free (try_catch p handler).
Proof.
  intros Hp Hh. induction Hp as [a | e | c k _ IH | m k _ IH]; simpl.
  - constructor.
  - apply Hh.
  - constructor. exact IH.
  - constructor. exact IH.
Qed.

Lemma spawn_free_await (c : Call) : spawn_free (await c).
Proof. constructor. intros [e | v]; constructor. Qed.

Lemma spawn_free_console_log (m : LogMsg) : spawn_free (console_log m).
Proof. repeat constructor. Qed.

End Process.

Lemma spawn_free_getValidators connection :
  spawn_free (getValidators connection).
Proof.
  unfold getValidators. cbv zeta.
  apply spawn_free_bind; [apply spawn_free_await | intros validators].
  apply spawn_free_bind; [apply spawn_free_console_log | intros _].
  apply spawn_free_console_log.
Qed.

(** X1. The process of an entry flow never ends by an exception thrown
    out of [runMain]: [runMain] returns, or the process dies of a
    rejection that nothing handles.  When [main] calls no function
    without awaiting it, the process is the run of [main], followed, when
    [main] throws, by one line with the exception, and [runMain]
    returns. *)
Theorem runMain_returns_or_the_process_dies :
  forall (label : option string) (main : Prog unit)
         (net : Network) (sched : Schedule) (h : list Event),
    let out := process net sched (runMain label main) h in
    (forall e, snd out <> Threw e)
    /\ (spawn_free main ->
        out
        = ((fst (run net main h)
            ++ match snd (run net main h) with
               | inl e => [ELog (log_error label e)]
               | inr _ => []
               end)%list,
           Returned tt)).
Proof.
  intros label main net sched h out. subst out.
  unfold process, runMain. rewrite live_try_catch. split.
  - intros e.
    destruct (live net sched main [] h) as [[t x] d].
    destruct x as [[] | e' | e']; simpl.
    + destruct (drain net d (h ++ t)) as [t' [e'' |]]; discriminate.
    + destruct (drain net d _) as [t' [e'' |]]; discriminate.
    + discriminate.
  - intros Hfree. rewrite (live_spawn_free net sched Hfree).
    destruct (run net main h) as [t [e | []]]; simpl.
    + rewrite app_nil_r. reflexivity.
    + rewrite !app_nil_r. reflexivity.
Qed.

Lemma runMain_returns_or_the_process_dies_run :
  let net := Fixture.devnet [Fixture.validator] [] in
  process net (fun _ => [0%nat]) get_validators.runMain []
  = ([ECall (conn_getVoteAccounts establishConnection)
        (inr {| current := [Fixture.validator]; delinquent := [] |});
      ELog (log_validators 1);
      ELog (log_current_validators 1)],
     Returned tt).
Proof.
  intros net.
  exact (proj2 (runMain_returns_or_the_process_dies
                  (Some "Error Encountered: ") get_validators.main
                  net (fun _ => [0%nat]) [])
           (spawn_free_getValidators (Some establishConnection))).
Defined.

(** ** The process of the lifecycle *)

Ltac exec_process_step net sched :=
  first
    [ rewrite settle_idx_nil
    | rewrite settle_idx_alone
    | match goal with
      | |- context [after_first_zero (sched ?h)] =>
          destruct (after_first_zero (sched h)) eqn:?
      end
    | exec_step net ].

Ltac exec_process net sched :=
  cbn; repeat (exec_process_step net sched; cbn).

(** The run and the process agree on [withdrawStake] as long as the status
    read that [delegateStake] leaves behind has not answered: with a
    schedule that settles nothing, the process up to the outcome of
    [withdrawStake] is its run, and that read is what is left behind. *)
Lemma live_withdrawStake_unsettled connection net h :
  let '(t, x, dropped) :=
    live net (fun _ => []) (withdrawStake connection) [] h in
  t = fst (run net (withdrawStake connection) h)
  /\ x = match snd (run net (withdrawStake connection) h) with
         | inl e => Threw e
         | inr keys => Returned keys
         end
  /\ (List.length dropped <= 1)%nat.
Proof.
  unfold_stages. unfold detach. cbn.
  repeat (first [rewrite app_nil_r | exec_step net]; cbn).
  all: auto.
Qed.

(** X16. The process of mains/withdraw_stake.js dies in one way only:
    the status read that [delegateStake] started without awaiting it is
    rejected.  The rejection is the last thing that happens, but for the
    call that the flow was waiting for, which is abandoned. *)
Theorem withdraw_flow_dies_of_the_status_read :
  forall (net : Network) (sched : Schedule) (h : list Event) (e : Error),
    let out := process net sched withdraw_stake.runMain h in
    snd out = Died e ->
    (exists stakeAccount,
        ending 2 (fst out)
        = [ESettle (conn_getStakeActivation establishConnection stakeAccount)
             (inl e);
           EUnhandled e])
    \/ (exists stakeAccount c,
           ending 3 (fst out)
           = [ESettle
                (conn_getStakeActivation establishConnection stakeAccount)
                (inl e);
              EUnhandled e;
              EAbandoned c]).
Proof.
  intros net sched h e out. subst out.
  unfold process, withdraw_stake.runMain, withdraw_stake.main, runMain.
  unfold_stages. unfold detach.
  exec_process net sched; intros Hdied; try discriminate.
  all: injection Hdied as <-.
  all: first [ left; eexists; reflexivity
             | right; eexists; eexists; reflexivity ].
Qed.

Lemma withdraw_flow_dies_of_the_status_read_run :
  let net := Fixture.rejecting 16 (Fixture.devnet [Fixture.validator] []) in
  let out := process net (fun _ => [0%nat]) withdraw_stake.runMain [] in
  (exists stakeAccount,
      ending 2 (fst out)
      = [ESettle (conn_getStakeActivation establishConnection stakeAccount)
           (inl Fixture.expired);
         EUnhandled Fixture.expired])
  \/ (exists stakeAccount c,
         ending 3 (fst out)
         = [ESettle
              (conn_getStakeActivation establishConnection stakeAccount)
              (inl Fixture.expired);
            EUnhandled Fixture.expired;
            EAbandoned c]).
Proof.
  intros net out.
  apply (withdraw_flow_dies_of_the_status_read net (fun _ => [0%nat]) []).
  vm_compute. reflexivity.
Defined.


